(** * goissue: a command-line client for an issue tracker's Atom feed

    A shallow embedding of [goissue.go] (the Go 1 version of the program)
    and the properties its specification states about it.

    Go strings are byte sequences: they are modelled by [string], whose
    characters are the 256 values of [ascii].  [log.Fatal] and [os.Exit]
    end the process, a failed index expression panics: both are outcomes of
    the process monad [Proc] below.  Packages of the Go library that the
    program calls are modelled in modules named after them. *)

From Stdlib Require Import String Ascii List ZArith Lia Bool Arith.
Import ListNotations.

Set Warnings "-register-all".

Local Open Scope list_scope.
Local Open Scope string_scope.

(** The byte 0x22, the double quote. *)
Definition dquote : ascii := "034"%char.
Definition LF : ascii := "010"%char.
Definition CR : ascii := "013"%char.

(** ** Package strings *)

Module strings.

(** [strings.Split(s, sep)] for a separator of one byte, the only use the
    program makes of it: the pieces of [s] between the occurrences of
    [sep], the empty string giving one empty piece. *)
Fixpoint Split (s : string) (sep : ascii) : list string :=
  match s with
  | EmptyString => [EmptyString]
  | String c s' =>
      if Ascii.eqb c sep then EmptyString :: Split s' sep
      else match Split s' sep with
           | [] => [String c EmptyString]
           | l :: ls => String c l :: ls
           end
  end.

(** [strings.Join(a, sep)]. *)
Definition Join (a : list string) (sep : string) : string :=
  String.concat sep a.

(** [strings.Replace(s, old, new, -1)] for [old] the two bytes CR LF and
    [new] the byte LF. *)
Fixpoint Replace_crlf_lf (s : string) : string :=
  match s with
  | EmptyString => EmptyString
  | String c s' =>
      match s' with
      | String d s'' =>
          if Ascii.eqb c CR && Ascii.eqb d LF
          then String LF (Replace_crlf_lf s'')
          else String c (Replace_crlf_lf s')
      | EmptyString => String c EmptyString
      end
  end.

(** [strings.Contains(s, c)] for one byte, and the number of occurrences. *)
Fixpoint ContainsByte (s : string) (c : ascii) : bool :=
  match s with
  | EmptyString => false
  | String d s' => Ascii.eqb d c || ContainsByte s' c
  end.

Fixpoint Count (s : string) (c : ascii) : nat :=
  match s with
  | EmptyString => 0
  | String d s' => (if Ascii.eqb d c then 1 else 0) + Count s' c
  end.

End strings.

(** Slice expressions [s[:n]] and [s[n:]] on a string of at least [n] bytes
    (the program guards both with a length test). *)
Definition slice_to (s : string) (n : nat) : string := substring 0 n s.
Definition slice_from (s : string) (n : nat) : string :=
  substring n (String.length s - n) s.

(** ** Escaping: [xmlSpecial] and [xmlEscape] *)

(** A map literal with byte keys, as the association list of its entries. *)
Definition xmlSpecial : list (ascii * string) :=
  [ ("<"%char, "&lt;");
    (">"%char, "&gt;");
    (dquote, "&quot;");
    ("'"%char, "&apos;");
    ("&"%char, "&amp;") ].

(** The map index expression [m[c]] in its two-valued form. *)
Fixpoint map_index (m : list (ascii * string)) (c : ascii) : option string :=
  match m with
  | [] => None
  | (k, v) :: m' => if Ascii.eqb k c then Some v else map_index m' c
  end.

(** The loop of [xmlEscape] over the bytes [s[i]], with the buffer [b]. *)
Fixpoint xmlEscape_loop (s : string) (b : string) : string :=
  match s with
  | EmptyString => b
  | String c s' =>
      match map_index xmlSpecial c with
      | Some e => xmlEscape_loop s' (b ++ e)
      | None => xmlEscape_loop s' (b ++ String c EmptyString)
      end
  end.

Definition xmlEscape (s : string) : string := xmlEscape_loop s EmptyString.

(** The escaping the specification describes: each of the five characters
    is replaced by its named entity, every other byte stands for itself. *)
Definition entity_of (c : ascii) : string :=
  if Ascii.eqb c "<" then "&lt;"
  else if Ascii.eqb c ">" then "&gt;"
  else if Ascii.eqb c dquote then "&quot;"
  else if Ascii.eqb c "'" then "&apos;"
  else if Ascii.eqb c "&" then "&amp;"
  else String c EmptyString.

Definition is_special (c : ascii) : bool :=
  Ascii.eqb c "<" || Ascii.eqb c ">" || Ascii.eqb c dquote
  || Ascii.eqb c "'" || Ascii.eqb c "&".

Fixpoint escape_spec (s : string) : string :=
  match s with
  | EmptyString => EmptyString
  | String c s' => entity_of c ++ escape_spec s'
  end.

Fixpoint has_special (s : string) : bool :=
  match s with
  | EmptyString => false
  | String c s' => is_special c || has_special s'
  end.

(** ** Package fmt *)

Module fmt.

(** [fmt.Fprintf(w, format)] with no operand writes a format that holds no
    verb marker (the byte [%]) as it is.  What the package prints for the
    directives of a format that holds one is not part of this model: it is
    the parameter [verbs]. *)
Definition Sprintf0 (verbs : string -> string) (format : string) : string :=
  if strings.ContainsByte format "%" then verbs format else format.

(** [fmt.Println(a, b, c)]: the operands separated by one space, then a
    newline. *)
Definition Sprintln3 (a b c : string) : string :=
  a ++ " " ++ b ++ " " ++ c ++ String LF "".

Definition Sprintln1 (a : string) : string := a ++ String LF "".

End fmt.

(** ** Package html: the parsed tree *)

Module html.

(** [html.NodeType].  [OtherNode] stands for every value of the type that
    the switch of [dumpLevel] does not name (a doctype node among them). *)
Inductive NodeType : Type :=
| ErrorNode
| TextNode
| DocumentNode
| ElementNode
| CommentNode
| OtherNode.

(** [html.Node], without the fields the program never reads ([Parent],
    [Attr]).  The children are the non-nil pointers of [Child]. *)
Inductive Node : Type :=
| mkNode (Type_ : NodeType) (Data : string) (Child : list Node).

Definition Type_ (n : Node) : NodeType := let 'mkNode t _ _ := n in t.
Definition Data (n : Node) : string := let 'mkNode _ d _ := n in d.
Definition Child (n : Node) : list Node := let 'mkNode _ _ c := n in c.

End html.

Import html.

(** ** The content flattener: [dumpLevel] and [dump] *)

(** A Go [error] value made by [errors.New], or [nil]. *)
Definition error : Type := option string.
Definition errors_New (msg : string) : error := Some msg.
Definition nil_error : error := None.

(** [io.WriteString(w, s)] on the [bytes.Buffer] that [dump] passes: the
    writer is the text written so far. *)
Definition WriteString (w : string) (s : string) : string := w ++ s.

(** [for i := 0; i < level; i++ { io.WriteString(w, "  ") }] *)
Fixpoint write_indent (w : string) (level : nat) : string :=
  match level with
  | 0 => w
  | S k => write_indent (WriteString w "  ") k
  end.

Section Flattener.

Variable verbs : string -> string.

(** [dumpLevel(w, n, level)]: the writer after the call, and the error. *)
Fixpoint dumpLevel (w : string) (n : Node) (level : nat) {struct n}
  : string * error :=
  let w := write_indent w level in
  match n with
  | mkNode ty data child =>
      let range :=
        fix range (w : string) (cs : list Node) {struct cs} : string * error :=
          match cs with
          | [] => (w, nil_error)
          | c :: cs' =>
              match dumpLevel w c (level + 1) with
              | (w', Some err) => (w', Some err)
              | (w', None) => range w' cs'
              end
          end in
      match ty with
      | ErrorNode => (w, errors_New "unexpected ErrorNode")
      | DocumentNode => (w, errors_New "unexpected DocumentNode")
      | ElementNode => range w child
      | TextNode => range (WriteString w (fmt.Sprintf0 verbs data)) child
      | CommentNode => (w, errors_New "COMMENT")
      | OtherNode => (w, errors_New "unknown node type")
      end
  end.

(** The loop [for _, c := range n.Child] of [dumpLevel] and of [dump]. *)
Fixpoint dumpRange (w : string) (cs : list Node) (level : nat)
  : string * error :=
  match cs with
  | [] => (w, nil_error)
  | c :: cs' =>
      match dumpLevel w c level with
      | (w', Some err) => (w', Some err)
      | (w', None) => dumpRange w' cs' level
      end
  end.

(** [dump(n)]; [None] is the nil pointer. *)
Definition dump (n : option Node) : string * error :=
  match n with
  | None => (EmptyString, nil_error)
  | Some r =>
      if Nat.eqb (List.length (Child r)) 0 then (EmptyString, nil_error)
      else
        match dumpRange EmptyString (Child r) 0 with
        | (_, Some err) => (EmptyString, Some err)
        | (b, None) => (b, nil_error)
        end
  end.

End Flattener.

(** *** What the specification says the flattener prints *)

(** Two spaces for each level. *)
Fixpoint indent (level : nat) : string :=
  match level with
  | 0 => EmptyString
  | S k => "  " ++ indent k
  end.

(** A node and the nodes below it in document order, each with its depth;
    [walks] does the same for a list of siblings. *)
Fixpoint walk (n : Node) (depth : nat) {struct n} : list (nat * Node) :=
  match n with
  | mkNode _ _ child =>
      (depth, n) ::
      (fix walks (cs : list Node) : list (nat * Node) :=
         match cs with
         | [] => []
         | c :: cs' => (walk c (S depth) ++ walks cs')%list
         end) child
  end.

Fixpoint walks (cs : list Node) (depth : nat) : list (nat * Node) :=
  match cs with
  | [] => []
  | c :: cs' => (walk c depth ++ walks cs' depth)%list
  end.

Definition is_text (n : Node) : bool :=
  match Type_ n with TextNode => true | _ => false end.

Definition is_element (n : Node) : bool :=
  match Type_ n with ElementNode => true | _ => false end.

(** The text a node adds after its indentation. *)
Definition own_text (n : Node) : string :=
  if is_text n then Data n else EmptyString.

Fixpoint concat_map {A} (f : A -> string) (l : list A) : string :=
  match l with
  | [] => EmptyString
  | x :: l' => f x ++ concat_map f l'
  end.

(** Every visited node gives its indentation, a text node its content. *)
Definition rendering (root : Node) : string :=
  concat_map (fun dn => indent (fst dn) ++ own_text (snd dn))
             (walks (Child root) 0).

(** The text nodes only, each after the indentation of its depth: the
    output as the testable property words it. *)
Definition text_rendering (root : Node) : string :=
  concat_map (fun dn => indent (fst dn) ++ Data (snd dn))
             (filter (fun dn => is_text (snd dn)) (walks (Child root) 0)).

(** The kinds that [dumpLevel] rejects, and the kind of the first rejected
    node of a list in document order. *)
Definition rejected (n : Node) : bool :=
  match Type_ n with
  | ElementNode | TextNode => false
  | _ => true
  end.

Fixpoint first_error (l : list (nat * Node)) : option NodeType :=
  match l with
  | [] => None
  | dn :: l' => if rejected (snd dn) then Some (Type_ (snd dn)) else first_error l'
  end.

(** The nodes that the walk reaches: those up to the first rejected one. *)
Fixpoint visited (l : list (nat * Node)) : list (nat * Node) :=
  match l with
  | [] => []
  | dn :: l' => if rejected (snd dn) then [dn] else dn :: visited l'
  end.

(** What is written for a list of visited nodes. *)
Definition written (verbs : string -> string) (l : list (nat * Node)) : string :=
  concat_map (fun dn => indent (fst dn) ++
                        (if is_text (snd dn) then fmt.Sprintf0 verbs (Data (snd dn))
                         else EmptyString)) l.

Definition only_element_text (root : Node) : bool :=
  forallb (fun dn => negb (rejected (snd dn))) (walks (Child root) 0).

Definition contains (ty : NodeType -> bool) (root : Node) : bool :=
  existsb (fun dn => ty (Type_ (snd dn))) (walks (Child root) 0).

Definition percent_free (root : Node) : bool :=
  forallb (fun dn => negb (is_text (snd dn)
                           && strings.ContainsByte (Data (snd dn)) "%"))
          (walks (Child root) 0).

Definition error_of (ty : option NodeType) : error :=
  match ty with
  | Some ErrorNode => errors_New "unexpected ErrorNode"
  | Some DocumentNode => errors_New "unexpected DocumentNode"
  | Some CommentNode => errors_New "COMMENT"
  | Some OtherNode => errors_New "unknown node type"
  | Some ElementNode | Some TextNode | None => nil_error
  end.

Definition is_comment (ty : NodeType) : bool :=
  match ty with CommentNode => true | _ => false end.

Definition is_document_or_error (ty : NodeType) : bool :=
  match ty with DocumentNode | ErrorNode => true | _ => false end.

Definition is_other (ty : NodeType) : bool :=
  match ty with OtherNode => true | _ => false end.

(** Sample trees.  [html.Parse] of the fragment <p>hi</p> gives a document
    node over html, which holds head and body. *)
Definition text_node (s : string) : Node := mkNode TextNode s [].
Definition element_node (tag : string) (cs : list Node) : Node :=
  mkNode ElementNode tag cs.
Definition comment_node (s : string) : Node := mkNode CommentNode s [].

Definition doc_p_hi : Node :=
  mkNode DocumentNode ""
    [element_node "html" [element_node "head" []; element_node "body" [element_node "p" [text_node "hi"]]]].

Definition doc_comment_then_error : Node :=
  mkNode DocumentNode "" [comment_node "c"; mkNode ErrorNode "" []].

Definition doc_error_then_comment : Node :=
  mkNode DocumentNode "" [mkNode ErrorNode "" []; comment_node "c"].

Definition doc_doctype_then_comment : Node :=
  mkNode DocumentNode "" [mkNode OtherNode "html" []; comment_node "c"; element_node "html" []].

(** A parameter for [verbs] in the examples, none of which prints a text
    with a verb marker. *)
Definition no_verbs : string -> string := fun format => format.

(** ** The feed model *)

Record Link : Type := {
  Href : string; Rel : string; Link_Type : string; HrefLang : string }.

Record Author : Type := { Name : string; Uri : string; Email : string }.

Record IssuesCc : Type := {
  Cc_IssuesUri : string; Cc_IssuesUsername : string }.

Record IssuesOwner : Type := {
  Owner_IssuesUri : string; Owner_IssuesUsername : string }.

Record Entry : Type := {
  XMLNs : string;
  Id : string;
  Published : string;
  Updated : string;
  Title : string;
  Content : string;
  Entry_Link : list Link;
  Entry_Author : list Author;
  Entry_IssuesCc : list IssuesCc;
  IssuesLabel : list string;
  Entry_IssuesOwner : list IssuesOwner;
  IssuesStars : list Z;
  IssuesState : list string;
  IssuesStatus : list string;
  IssuesSummary : string }.

Record Feed : Type := { Feed_Entry : list Entry }.

(** ** The draft of a new issue *)

Definition nl : string := String LF EmptyString.

(** The fallible steps of [createIssue] that end in [log.Fatal]. *)
Inductive result (A : Type) : Type :=
| Ok (a : A)
| Fatal (msg : string).
Arguments Ok {A} a.
Arguments Fatal {A} msg.

(** [createIssue], from the text read back from the edited file to the
    three fields of the draft: the author, the title and the body. *)
Definition createIssue_draft (windows : bool) (text : string)
  : result (string * string * string) :=
  let text := if windows then strings.Replace_crlf_lf text else text in
  let lines := strings.Split text LF in
  if (List.length lines <? 4)%nat then Fatal "failed to create issue" else
  let from := nth 0 lines EmptyString in
  if (String.length from <? 7)%nat || negb (slice_to from 6 =? "from: ")%string
  then Fatal "failed to create issue" else
  let from := slice_from from 6 in
  let title := nth 1 lines EmptyString in
  if (String.length title <? 8)%nat || negb (slice_to title 7 =? "title: ")%string
  then Fatal "failed to create issue" else
  let title := slice_from title 7 in
  let body := strings.Join (skipn 3 lines) nl in
  Ok (from, title, body).

(** [fmt.Sprintf(format, args...)] for a format whose only verb is [%s] and
    string operands, one for each verb. *)
Fixpoint Sprintf_s (format : string) (args : list string) : string :=
  match format with
  | EmptyString => EmptyString
  | String c f' =>
      match f' with
      | String d f'' =>
          if Ascii.eqb c "%" && Ascii.eqb d "s" then
            match args with
            | a :: args' => a ++ Sprintf_s f'' args'
            | [] => "%!s(MISSING)" ++ Sprintf_s f'' []
            end
          else String c (Sprintf_s f' args)
      | EmptyString => String c EmptyString
      end
  end.

(** [createIssue]: the document sent for the draft. *)
Definition createIssue_document (title body from : string) : string :=
  Sprintf_s
    ("<?xml version='1.0' encoding='UTF-8'?>" ++ nl ++
     "<entry xmlns='http://www.w3.org/2005/Atom' xmlns:issues='http://schemas.google.com/projecthosting/issues/2009'>" ++ nl ++
     "<title>%s</title>" ++ nl ++
     "<content type='html'>%s</content>" ++ nl ++
     "<author><name>%s</name></author>" ++ nl ++
     "<issues:updates>" ++ nl ++
     "<issues:summary>%s</issues:summary>" ++ nl ++
     "<issues:status>Started</issues:status>" ++ nl ++
     "<issues:label>-Type-Defect</issues:label>" ++ nl ++
     "<issues:label>-Priority-Medium</issues:label>" ++ nl ++
     "</issues:updates>" ++ nl ++
     "</entry>")
    [xmlEscape title; xmlEscape body; xmlEscape from; xmlEscape title].

(** The template written to the file before the editor runs. *)
Definition contents : string :=
  strings.Join
    [ "from: ";
      "title: ";
      "--------------";
      "Before filing a bug, please check whether it has been fixed since";
      "the latest release: run " ++ String dquote "hg pull -u" ++ String dquote " and retry what you did to";
      "reproduce the problem.  Thanks.";
      "";
      "What steps will reproduce the problem?";
      "1.";
      "2.";
      "3.";
      "";
      "What is the expected output?";
      "";
      "";
      "What do you see instead?";
      "";
      "";
      "Which compiler are you using (5g, 6g, 8g, gccgo)?";
      "";
      "";
      "Which operating system are you using?";
      "";
      "";
      "Which revision are you using?  (hg identify)";
      "";
      "";
      "Please provide any additional information below.";
      "" ] nl.

(** *** Reading the document as markup and character data *)

Inductive XmlToken : Type :=
| Markup (s : string)
| CharData (s : string).

(** The text between a [<] and the next [>] is markup, the rest is
    character data; [acc] is the piece being read. *)
Fixpoint scan (in_markup : bool) (acc : string) (s : string) : list XmlToken :=
  match s with
  | EmptyString => if in_markup then [Markup acc] else [CharData acc]
  | String c s' =>
      if in_markup then
        if Ascii.eqb c ">" then Markup acc :: scan false EmptyString s'
        else scan true (acc ++ String c EmptyString) s'
      else
        if Ascii.eqb c "<" then CharData acc :: scan true EmptyString s'
        else scan false (acc ++ String c EmptyString) s'
  end.

Definition xml_tokens (s : string) : list XmlToken := scan false EmptyString s.

(** The names of the elements a document opens: the markup that is
    neither an end tag nor a processing instruction, up to the first space. *)
Fixpoint upto_space (s : string) : string :=
  match s with
  | EmptyString => EmptyString
  | String c s' => if Ascii.eqb c " " then EmptyString else String c (upto_space s')
  end.

Fixpoint element_names (ts : list XmlToken) : list string :=
  match ts with
  | [] => []
  | Markup (String c m) :: ts' =>
      if Ascii.eqb c "/" || Ascii.eqb c "?" then element_names ts'
      else upto_space (String c m) :: element_names ts'
  | _ :: ts' => element_names ts'
  end.

(** The character data of the elements named [name] that hold text only. *)
Fixpoint texts_of (name : string) (ts : list XmlToken) : list string :=
  match ts with
  | Markup m :: ((CharData d :: Markup m' :: _) as ts') =>
      if ((upto_space m =? name) && (m' =? "/" ++ name))%string
      then d :: texts_of name ts' else texts_of name ts'
  | _ :: ts' => texts_of name ts'
  | [] => []
  end.

(** ** The process: events, the world and the monad [Proc] *)

(** An HTTP request as [http.NewRequest] and the assignments after it
    leave it. *)
Record Request : Type := {
  Method : string;
  URL : string;
  Header : list (string * string);
  ContentLength : option nat;
  ReqBody : string }.

(** What the process does that is seen from outside, in order. *)
Inductive Event : Type :=
| EvUsage
| EvPostForm (url : string) (values : list (string * string))
| EvDo (req : Request)
| EvPrintln (line : string)
| EvFatal (msg : string) (operand : option string).

(** An HTTP response: [ReadAllErr] tells that [ioutil.ReadAll] of the body
    fails (after reading [Body]). *)
Record Response : Type := {
  StatusCode : Z;
  Status : string;
  Body : string;
  ReadAllErr : bool }.

(** The settings file: unreadable, not the JSON of a string map, or the
    map that [json.Unmarshal] fills. *)
Inductive Settings : Type :=
| SettingsUnreadable
| SettingsMalformed
| SettingsMap (config : list (string * string)).

(** Everything outside the program that a run depends on. *)
Record World : Type := {
  GOOS_windows : bool;
  settings_file : string;
  settings_json : Settings;
  RoundTrip : nat -> option Response;
  NewRequest_ok : string -> bool;
  QueryEscape : string -> string;
  xml_Unmarshal_Entry : string -> option Entry;
  xml_Unmarshal_Feed : string -> option Feed;
  html_Parse : string -> option Node;
  fmt_verbs : string -> string;
  editor_ok : bool;
  edited_file : option string }.

(** The state of the process: what it did so far, and the package
    variable [project]. *)
Record State : Type := { trace : list Event; project : string }.

Inductive Outcome (A : Type) : Type :=
| Returned (a : A)
| Exited (code : Z)
| Panicked (msg : string).
Arguments Returned {A} a.
Arguments Exited {A} code.
Arguments Panicked {A} msg.

Definition Proc (A : Type) : Type := State -> State * Outcome A.

Definition ret {A} (a : A) : Proc A := fun st => (st, Returned a).

Definition bind {A B} (p : Proc A) (k : A -> Proc B) : Proc B :=
  fun st =>
    match p st with
    | (st', Returned a) => k a st'
    | (st', Exited code) => (st', Exited code)
    | (st', Panicked msg) => (st', Panicked msg)
    end.

Notation "x <- p ;; k" := (bind p (fun x => k))
  (at level 61, p at next level, right associativity).
Notation "p ;;; k" := (bind p (fun _ => k))
  (at level 61, right associativity).

Definition emit (e : Event) : Proc unit :=
  fun st => ({| trace := (trace st ++ [e])%list; project := project st |}, Returned tt).

Definition os_Exit {A} (code : Z) : Proc A := fun st => (st, Exited code).

Definition panic {A} (msg : string) : Proc A := fun st => (st, Panicked msg).

(** [log.Fatal(msg, x)]: the message, then [os.Exit(1)].  The operand [x]
    is kept when it is a string of the program, dropped when it is an
    error value of a library. *)
Definition log_Fatal {A} (msg : string) (operand : option string) : Proc A :=
  emit (EvFatal msg operand) ;;; os_Exit 1.

Definition get_project : Proc string := fun st => (st, Returned (project st)).

Definition set_project (p : string) : Proc unit :=
  fun st => ({| trace := trace st; project := p |}, Returned tt).

Definition is_network (e : Event) : bool :=
  match e with
  | EvPostForm _ _ | EvDo _ => true
  | _ => false
  end.

Definition is_feed_request (e : Event) : bool :=
  match e with
  | EvDo _ => true
  | _ => false
  end.

(** The map index expressions [v, ok := m[k]] and [m[k]]. *)
Fixpoint config_lookup (m : list (string * string)) (k : string) : option string :=
  match m with
  | [] => None
  | (k', v) :: m' => if (k' =? k)%string then Some v else config_lookup m' k
  end.

Definition config_index (m : list (string * string)) (k : string) : string :=
  match config_lookup m k with Some v => v | None => EmptyString end.

Definition version : string := "0.01".

Section Program.

Variable W : World.

(** The [k]-th exchange with the network of the run is answered by
    [RoundTrip W k]. *)
Definition exchange (e : Event) : Proc (option Response) :=
  fun st =>
    let k := List.length (filter is_network (trace st)) in
    ({| trace := (trace st ++ [e])%list; project := project st |},
     Returned (RoundTrip W k)).

Definition http_PostForm (url : string) (values : list (string * string))
  : Proc (option Response) := exchange (EvPostForm url values).

Definition http_Do (req : Request) : Proc (option Response) :=
  exchange (EvDo req).

(** [http.NewRequest(method, url, body)]; [None] is its error. *)
Definition http_NewRequest (method url body : string) : option Request :=
  if NewRequest_ok W url
  then Some {| Method := method; URL := url; Header := [];
               ContentLength := None; ReqBody := body |}
  else None.

Definition Header_Set (req : Request) (k v : string) : Request :=
  {| Method := Method req; URL := URL req;
     Header := (Header req ++ [(k, v)])%list;
     ContentLength := ContentLength req; ReqBody := ReqBody req |}.

Definition set_ContentLength (req : Request) (n : nat) : Request :=
  {| Method := Method req; URL := URL req; Header := Header req;
     ContentLength := Some n; ReqBody := ReqBody req |}.

(** [authLogin(config)] *)
Definition authLogin (config : list (string * string)) : Proc string :=
  res <- http_PostForm "https://www.google.com/accounts/ClientLogin"
           [ ("accountType", "GOOGLE");
             ("Email", config_index config "email");
             ("Passwd", config_index config "password");
             ("service", "code");
             ("source", "golang-goissue-" ++ version) ] ;;
  match res with
  | None => log_Fatal "failed to authenticate:" None
  | Some res =>
      let b := Body res in
      if negb (StatusCode res =? 200)%Z
      then log_Fatal "failed to authenticate:" (Some (Status res))
      else
        let lines := strings.Split b LF in
        match nth_error lines 2 with
        | Some line => ret line
        | None => panic "index out of range"
        end
  end.

(** [getConfig()] *)
Definition getConfig : Proc (list (string * string)) :=
  match settings_json W with
  | SettingsUnreadable =>
      log_Fatal ("failed to read file " ++ settings_file W ++ ":") None
  | SettingsMalformed => log_Fatal "failed to unmarhal settings.json:" None
  | SettingsMap config =>
      match config_lookup config "email" with
      | None => log_Fatal "failed to get email from your settings.json:" None
      | Some _ =>
          match config_lookup config "password" with
          | None => log_Fatal "failed to get email from your settings.json:" None
          | Some _ =>
              match config_lookup config "project" with
              | Some _ => set_project (config_index config "project") ;;; ret config
              | None => ret config
              end
          end
      end
  end.

(** The lines every reading operation shares: build the request, set the
    authorization header, send it, and read the body of a 200 response;
    [m1] .. [m4] are the messages of the four [log.Fatal] calls. *)
Definition fetch (auth url m1 m2 m3 m4 : string) : Proc string :=
  match http_NewRequest "GET" url EmptyString with
  | None => log_Fatal m1 None
  | Some req =>
      let req := Header_Set req "Authorization" ("GoogleLogin " ++ auth) in
      res <- http_Do req ;;
      match res with
      | None => log_Fatal m2 None
      | Some res =>
          if negb (StatusCode res =? 200)%Z
          then log_Fatal m3 (Some (Status res))
          else if ReadAllErr res then log_Fatal m4 None
          else ret (Body res)
      end
  end.

(** The two lines that flatten the content of an entry. *)
Definition render (content : string) : Proc string :=
  match html_Parse W content with
  | None => log_Fatal "failed to parse xml:" None
  | Some doc =>
      match dump (fmt_verbs W) (Some doc) with
      | (_, Some _) => log_Fatal "failed to parse xml:" None
      | (text, None) => ret text
      end
  end.

(** [showIssue(auth, id)] *)
Definition showIssue (auth id : string) : Proc unit :=
  project <- get_project ;;
  b <- fetch auth
         ("https://code.google.com/feeds/issues/p/" ++ project ++ "/issues/full/" ++ id)
         "failed to get issue:" "failed to get issue:"
         "failed to authenticate:" "failed to get issue:" ;;
  match xml_Unmarshal_Entry W b with
  | None => log_Fatal "failed to get issue:" None
  | Some entry =>
      text <- render (Content entry) ;;
      emit (EvPrintln (fmt.Sprintln3 (Title entry) nl text))
  end.

(** The loop [for _, entry := range feed.Entry] with a body [f]. *)
Fixpoint for_range {A} (l : list A) (f : A -> Proc unit) : Proc unit :=
  match l with
  | [] => ret tt
  | x :: l' => f x ;;; for_range l' f
  end.

(** [searchIssues(auth, word)] *)
Definition searchIssues (auth word : string) : Proc unit :=
  project <- get_project ;;
  b <- fetch auth
         ("https://code.google.com/feeds/issues/p/" ++ project ++ "/issues/full?q="
          ++ QueryEscape W word)
         "failed to get issues:" "failed to get issues:"
         "failed to get issues:" "failed to parse xml:" ;;
  match xml_Unmarshal_Feed W b with
  | None => log_Fatal "failed to parse xml:" None
  | Some feed =>
      for_range (Feed_Entry feed)
        (fun entry => emit (EvPrintln (fmt.Sprintln1 (Id entry ++ ": " ++ Title entry))))
  end.

(** [showIssues(auth)] *)
Definition showIssues (auth : string) : Proc unit :=
  project <- get_project ;;
  b <- fetch auth
         ("https://code.google.com/feeds/issues/p/" ++ project ++ "/issues/full")
         "failed to get issues:" "failed to get issues:"
         "failed to get issues:" "failed to get issue:" ;;
  match xml_Unmarshal_Feed W b with
  | None => log_Fatal "failed to parse xml:" None
  | Some feed =>
      for_range (Feed_Entry feed)
        (fun entry => emit (EvPrintln (fmt.Sprintln1 (Id entry ++ ": " ++ Title entry))))
  end.

(** [showComments(auth, id)] *)
Definition showComments (auth id : string) : Proc unit :=
  project <- get_project ;;
  b <- fetch auth
         ("https://code.google.com/feeds/issues/p/" ++ project ++ "/issues/" ++ id
          ++ "/comments/full")
         "failed to get comments:" "failed to get comments:"
         "failed to authenticate:" "failed to parse xml:" ;;
  match xml_Unmarshal_Feed W b with
  | None => log_Fatal "failed to get comments:" None
  | Some feed =>
      for_range (Feed_Entry feed)
        (fun entry =>
           text <- render (Content entry) ;;
           emit (EvPrintln (fmt.Sprintln3 (Title entry) nl text)))
  end.

(** [createIssue(auth)].  Writing the template, running the editor and
    reading the file back leave no event: the world tells how they end. *)
Definition createIssue (auth : string) : Proc unit :=
  if negb (editor_ok W) then log_Fatal "failed to create issue:" None else
  match edited_file W with
  | None => log_Fatal "failed to create issue:" None
  | Some text =>
      match createIssue_draft (GOOS_windows W) text with
      | Fatal msg => log_Fatal msg None
      | Ok (from, title, body) =>
          let str := createIssue_document title body from in
          project <- get_project ;;
          match http_NewRequest "POST"
                  ("https://code.google.com/feeds/issues/p/" ++ project ++ "/issues/full")
                  str with
          | None => log_Fatal "failed to post issue:" None
          | Some req =>
              let req := Header_Set req "Authorization" ("GoogleLogin " ++ auth) in
              let req := Header_Set req "Content-Type" "application/atom+xml" in
              let req := set_ContentLength req (String.length str) in
              res <- http_Do req ;;
              match res with
              | None => log_Fatal "failed to get issue:" None
              | Some res => emit (EvPrintln (fmt.Sprintln1 (Status res)))
              end
          end
      end
  end.

(** The command line after [flag.Parse()]: the values of [-s], [-C] and
    [-c], and the positional arguments. *)
Record Flags : Type := {
  search : string;
  create : bool;
  comment : bool;
  args : list string }.

(** [main()] *)
Definition main (fl : Flags) : Proc unit :=
  if (1 <? List.length (args fl))%nat then emit EvUsage ;;; os_Exit 1 else
  config <- getConfig ;;
  auth <- authLogin config ;;
  if create fl then createIssue auth
  else if (0 <? String.length (search fl))%nat then searchIssues auth (search fl)
  else if (List.length (args fl) =? 0)%nat then showIssues auth
  else
    for_range (args fl)
      (fun id =>
         showIssue auth id ;;;
         if comment fl then showComments auth id else ret tt).

End Program.

(** The state in which [main] starts. *)
Definition start : State := {| trace := []; project := "go" |}.

Definition run (W : World) (fl : Flags) : State * Outcome unit := main W fl start.

(** ** Sample worlds and command lines *)

Definition sample_config : list (string * string) :=
  [("email", "gopher@example.com"); ("password", "secret")].

Definition login_ok : Response :=
  {| StatusCode := 200; Status := "200 OK";
     Body := "SID=s" ++ nl ++ "LSID=l" ++ nl ++ "Auth=tok" ++ nl;
     ReadAllErr := false |}.

Definition login_forbidden : Response :=
  {| StatusCode := 403; Status := "403 Forbidden";
     Body := "Error=BadAuthentication" ++ nl;
     ReadAllErr := false |}.

(** A 200 response whose third line is no [Auth=] line, and one of two
    lines. *)
Definition login_odd : Response :=
  {| StatusCode := 200; Status := "200 OK";
     Body := "first" ++ nl ++ "second" ++ nl ++ "third";
     ReadAllErr := false |}.

Definition login_short : Response :=
  {| StatusCode := 200; Status := "200 OK";
     Body := "SID=s" ++ nl ++ "Auth=tok";
     ReadAllErr := false |}.

Definition feed_ok : Response :=
  {| StatusCode := 200; Status := "200 OK"; Body := "<entry/>";
     ReadAllErr := false |}.

Definition sample_entry : Entry :=
  {| XMLNs := ""; Id := "1"; Published := ""; Updated := "";
     Title := "Bug X"; Content := "<p>hi</p>";
     Entry_Link := []; Entry_Author := []; Entry_IssuesCc := [];
     IssuesLabel := []; Entry_IssuesOwner := []; IssuesStars := [];
     IssuesState := []; IssuesStatus := []; IssuesSummary := "" |}.

(** A world in which everything succeeds, with a given answer to the
    login. *)
Definition world_with (login : option Response) : World :=
  {| GOOS_windows := false;
     settings_file := "/home/gopher/.config/goissue/settings.json";
     settings_json := SettingsMap sample_config;
     RoundTrip := fun k => match k with 0 => login | _ => Some feed_ok end;
     NewRequest_ok := fun _ => true;
     QueryEscape := fun s => s;
     xml_Unmarshal_Entry := fun _ => Some sample_entry;
     xml_Unmarshal_Feed := fun _ => Some {| Feed_Entry := [sample_entry] |};
     html_Parse := fun _ => Some doc_p_hi;
     fmt_verbs := no_verbs;
     editor_ok := true;
     edited_file := Some contents |}.

Definition world_ok : World := world_with (Some login_ok).
Definition world_403 : World := world_with (Some login_forbidden).

Definition flags_of (arguments : list string) : Flags :=
  {| search := ""; create := false; comment := false; args := arguments |}.

Definition login_url : string := "https://www.google.com/accounts/ClientLogin".

(** The request that [showIssue] sends. *)
Definition issue_request (project auth id : string) : Request :=
  {| Method := "GET";
     URL := "https://code.google.com/feeds/issues/p/" ++ project ++ "/issues/full/" ++ id;
     Header := [("Authorization", "GoogleLogin " ++ auth)];
     ContentLength := None;
     ReqBody := "" |}.

(** A draft as an editor may leave it. *)
Definition sample_draft : string :=
  "from: Alice" ++ nl ++ "title: Bug X" ++ nl ++ "--------------" ++ nl
  ++ "It crashes." ++ nl ++ "Every time.".

(** The form that [authLogin] posts, and the state after the post. *)
Definition login_values (config : list (string * string)) : list (string * string) :=
  [ ("accountType", "GOOGLE");
    ("Email", config_index config "email");
    ("Passwd", config_index config "password");
    ("service", "code");
    ("source", "golang-goissue-" ++ version) ].

Definition posted (st : State) (config : list (string * string)) : State :=
  {| trace := (trace st ++ [EvPostForm login_url (login_values config)])%list;
     project := project st |}.

(** A computation that only adds events to the trace. *)
Definition extends {A} (p : Proc A) : Prop :=
  forall st, exists evs, trace (fst (p st)) = (trace st ++ evs)%list.

Definition no_newline (s : string) : bool := negb (strings.ContainsByte s LF).

(** The tokens of the document sent for a draft. *)
Definition document_tokens (title body from : string) : list XmlToken :=
  [ CharData ""; Markup "?xml version='1.0' encoding='UTF-8'?"; CharData nl;
    Markup "entry xmlns='http://www.w3.org/2005/Atom' xmlns:issues='http://schemas.google.com/projecthosting/issues/2009'";
    CharData nl;
    Markup "title"; CharData (xmlEscape title); Markup "/title"; CharData nl;
    Markup "content type='html'"; CharData (xmlEscape body); Markup "/content";
    CharData nl;
    Markup "author"; CharData ""; Markup "name"; CharData (xmlEscape from);
    Markup "/name"; CharData ""; Markup "/author"; CharData nl;
    Markup "issues:updates"; CharData nl;
    Markup "issues:summary"; CharData (xmlEscape title); Markup "/issues:summary";
    CharData nl;
    Markup "issues:status"; CharData "Started"; Markup "/issues:status"; CharData nl;
    Markup "issues:label"; CharData "-Type-Defect"; Markup "/issues:label"; CharData nl;
    Markup "issues:label"; CharData "-Priority-Medium"; Markup "/issues:label";
    CharData nl;
    Markup "/issues:updates"; CharData nl;
    Markup "/entry"; CharData "" ].

(** ** More of [createIssue]: the template on Windows, the request *)

(** [strings.Replace(s, old, new, -1)] for [old] the byte LF and [new] the
    two bytes CR LF. *)
Fixpoint Replace_lf_crlf (s : string) : string :=
  match s with
  | EmptyString => EmptyString
  | String c s' =>
      if Ascii.eqb c LF then String CR (String LF (Replace_lf_crlf s'))
      else String c (Replace_lf_crlf s')
  end.

(** The bytes that [createIssue] writes to the file. *)
Definition createIssue_contents (windows : bool) : string :=
  if windows then Replace_lf_crlf contents else contents.

(** A draft text with the given author, title, separator line and body. *)
Definition draft_text (from title separator body : string) : string :=
  "from: " ++ from ++ nl ++ "title: " ++ title ++ nl ++ separator ++ nl ++ body.

(** The request that [createIssue] sends for a document. *)
Definition create_request (project auth str : string) : Request :=
  {| Method := "POST";
     URL := "https://code.google.com/feeds/issues/p/" ++ project ++ "/issues/full";
     Header := [("Authorization", "GoogleLogin " ++ auth);
                ("Content-Type", "application/atom+xml")];
     ContentLength := Some (String.length str);
     ReqBody := str |}.

(** ** The requests and the output of the reading operations *)

Definition get_request (auth url : string) : Request :=
  {| Method := "GET"; URL := url;
     Header := [("Authorization", "GoogleLogin " ++ auth)];
     ContentLength := None; ReqBody := "" |}.

Definition list_url (project : string) : string :=
  "https://code.google.com/feeds/issues/p/" ++ project ++ "/issues/full".

Definition search_url (W : World) (project word : string) : string :=
  "https://code.google.com/feeds/issues/p/" ++ project ++ "/issues/full?q="
  ++ QueryEscape W word.

Definition issue_url (project id : string) : string :=
  "https://code.google.com/feeds/issues/p/" ++ project ++ "/issues/full/" ++ id.

Definition comments_url (project id : string) : string :=
  "https://code.google.com/feeds/issues/p/" ++ project ++ "/issues/" ++ id
  ++ "/comments/full".

(** One line for each entry of a feed, in the order of the feed. *)
Definition feed_lines (entries : list Entry) : list Event :=
  map (fun entry => EvPrintln (fmt.Sprintln1 (Id entry ++ ": " ++ Title entry)))
      entries.

(** The flattened content of an entry, when it parses and flattens. *)
Definition rendered (W : World) (content : string) : option string :=
  match html_Parse W content with
  | None => None
  | Some doc =>
      match dump (fmt_verbs W) (Some doc) with
      | (_, Some _) => None
      | (text, None) => Some text
      end
  end.

(** The events of the loop of [showComments]: the entries printed up to
    the first one that does not render, and the fatal message for that
    one; and whether the loop came to its end. *)
Fixpoint comment_events (W : World) (entries : list Entry) : list Event * bool :=
  match entries with
  | [] => ([], true)
  | entry :: entries' =>
      match rendered W (Content entry) with
      | None => ([EvFatal "failed to parse xml:" None], false)
      | Some text =>
          let (evs, ok) := comment_events W entries' in
          (EvPrintln (fmt.Sprintln3 (Title entry) nl text) :: evs, ok)
      end
  end.

Definition add_events (st : State) (evs : list Event) : State :=
  {| trace := (trace st ++ evs)%list; project := project st |}.

Definition requests_sent (st : State) : nat :=
  List.length (filter is_network (trace st)).

Definition is_println (e : Event) : bool :=
  match e with EvPrintln _ => true | _ => false end.

Definition is_login (e : Event) : bool :=
  match e with EvPostForm _ _ => true | _ => false end.

(** A computation that only adds events that satisfy [P]. *)
Definition adds_only (P : Event -> Prop) {A} (p : Proc A) : Prop :=
  forall st, exists evs,
    trace (fst (p st)) = (trace st ++ evs)%list /\ Forall P evs.

(** What holds of every event after the login: it is no second login, and
    a feed request goes to the tracker with the token of the login. *)
Definition after_login (auth : string) (e : Event) : Prop :=
  match e with
  | EvPostForm _ _ => False
  | EvDo req =>
      In ("Authorization", "GoogleLogin " ++ auth) (Header req) /\
      prefix "https://code.google.com/feeds/issues/p/" (URL req) = true
  | _ => True
  end.

(** A world whose feed answers are decoded to a feed of two entries, the
    second of which holds a comment node. *)
Definition entry_comment : Entry :=
  {| XMLNs := ""; Id := "2"; Published := ""; Updated := "";
     Title := "Bug Y"; Content := "<!--c-->";
     Entry_Link := []; Entry_Author := []; Entry_IssuesCc := [];
     IssuesLabel := []; Entry_IssuesOwner := []; IssuesStars := [];
     IssuesState := []; IssuesStatus := []; IssuesSummary := "" |}.

Definition world_comments : World :=
  {| GOOS_windows := false;
     settings_file := "/home/gopher/.config/goissue/settings.json";
     settings_json := SettingsMap sample_config;
     RoundTrip := fun k => match k with 0 => Some login_ok | _ => Some feed_ok end;
     NewRequest_ok := fun _ => true;
     QueryEscape := fun s => s;
     xml_Unmarshal_Entry := fun _ => Some sample_entry;
     xml_Unmarshal_Feed :=
       fun _ => Some {| Feed_Entry := [sample_entry; entry_comment; sample_entry] |};
     html_Parse :=
       fun s => if (s =? "<p>hi</p>")%string then Some doc_p_hi
                else Some (mkNode DocumentNode "" [comment_node "c"]);
     fmt_verbs := no_verbs;
     editor_ok := true;
     edited_file := Some sample_draft |}.

Definition server_error : Response :=
  {| StatusCode := 500; Status := "500 Internal Server Error"; Body := "";
     ReadAllErr := false |}.

(** A world in which the login succeeds and every later request is
    answered by status 500. *)
Definition world_500 : World :=
  {| GOOS_windows := false;
     settings_file := "/home/gopher/.config/goissue/settings.json";
     settings_json := SettingsMap sample_config;
     RoundTrip := fun k => match k with 0 => Some login_ok | _ => Some server_error end;
     NewRequest_ok := fun _ => true;
     QueryEscape := fun s => s;
     xml_Unmarshal_Entry := fun _ => Some sample_entry;
     xml_Unmarshal_Feed := fun _ => Some {| Feed_Entry := [sample_entry] |};
     html_Parse := fun _ => Some doc_p_hi;
     fmt_verbs := no_verbs;
     editor_ok := true;
     edited_file := Some sample_draft |}.

(** A world whose settings hold no password. *)
Definition world_no_password : World :=
  {| GOOS_windows := false;
     settings_file := "/home/gopher/.config/goissue/settings.json";
     settings_json := SettingsMap [("email", "gopher@example.com")];
     RoundTrip := fun _ => Some login_ok;
     NewRequest_ok := fun _ => true;
     QueryEscape := fun s => s;
     xml_Unmarshal_Entry := fun _ => Some sample_entry;
     xml_Unmarshal_Feed := fun _ => Some {| Feed_Entry := [sample_entry] |};
     html_Parse := fun _ => Some doc_p_hi;
     fmt_verbs := no_verbs;
     editor_ok := true;
     edited_file := Some sample_draft |}.

Definition logged_in : State := posted start sample_config.

(** * Properties *)

(** ** Strings *)

Lemma append_nil_r (s : string) : s ++ "" = s.
Proof. induction s as [|c s IH]; simpl; [reflexivity | now rewrite IH]. Qed.

Lemma append_assoc (a b c : string) : (a ++ b) ++ c = a ++ (b ++ c).
Proof. induction a as [|x a IH]; simpl; [reflexivity | now rewrite IH]. Qed.

Lemma length_append (a b : string) :
  String.length (a ++ b) = String.length a + String.length b.
Proof. induction a as [|x a IH]; simpl; [reflexivity | now rewrite IH]. Qed.

Lemma append_cons (c : ascii) (a b : string) :
  String c a ++ b = String c (a ++ b).
Proof. reflexivity. Qed.

Lemma append_snoc (a : string) (c : ascii) (b : string) :
  (a ++ String c "") ++ b = a ++ String c b.
Proof. now rewrite append_assoc. Qed.

(** ** Escaping *)

Lemma map_index_xmlSpecial (c : ascii) :
  map_index xmlSpecial c = if is_special c then Some (entity_of c) else None.
Proof.
  unfold xmlSpecial, is_special, entity_of, map_index.
  rewrite !(Ascii.eqb_sym _ c).
  repeat (destruct (Ascii.eqb c _); simpl; try reflexivity).
Qed.

Lemma entity_of_plain (c : ascii) :
  is_special c = false -> entity_of c = String c "".
Proof.
  unfold is_special, entity_of.
  repeat (destruct (Ascii.eqb c _); simpl; try discriminate); reflexivity.
Qed.

Lemma xmlEscape_loop_spec (s b : string) :
  xmlEscape_loop s b = b ++ escape_spec s.
Proof.
  revert b; induction s as [|c s IH]; intro b; cbn [xmlEscape_loop escape_spec].
  - now rewrite append_nil_r.
  - rewrite map_index_xmlSpecial.
    destruct (is_special c) eqn:E.
    + now rewrite IH, append_assoc.
    + now rewrite IH, append_assoc, (entity_of_plain c E).
Qed.

Lemma xmlEscape_spec (s : string) : xmlEscape s = escape_spec s.
Proof. unfold xmlEscape. now rewrite xmlEscape_loop_spec. Qed.

Lemma escape_spec_app (a b : string) :
  escape_spec (a ++ b) = escape_spec a ++ escape_spec b.
Proof.
  induction a as [|c a IH]; simpl; [reflexivity|].
  now rewrite IH, append_assoc.
Qed.

Lemma escape_spec_plain (s : string) :
  has_special s = false -> escape_spec s = s.
Proof.
  induction s as [|c s IH]; simpl; [reflexivity|].
  intro H. apply orb_false_iff in H. destruct H as [Hc Hs].
  now rewrite (entity_of_plain c Hc), (IH Hs).
Qed.

(** C5.  For every string, [xmlEscape] gives the text in which each of the
    five characters stands as its entity and every other byte as itself, in
    the order of the input; it distributes over concatenation, leaves a
    string without the five characters as it is, and the sample of the
    specification escapes as stated. *)
Theorem xmlEscape_correct :
  (forall s, xmlEscape s = escape_spec s) /\
  (forall a b, xmlEscape (a ++ b) = xmlEscape a ++ xmlEscape b) /\
  (forall c, xmlEscape (String c "") =
             if is_special c then entity_of c else String c "") /\
  (forall s, has_special s = false -> xmlEscape s = s) /\
  (entity_of "<" = "&lt;" /\ entity_of ">" = "&gt;" /\
   entity_of dquote = "&quot;" /\ entity_of "'" = "&apos;" /\
   entity_of "&" = "&amp;") /\
  xmlEscape ("<a&b>'" ++ String dquote "") = "&lt;a&amp;b&gt;&apos;&quot;".
Proof.
  split; [exact xmlEscape_spec|].
  split; [intros a b; rewrite !xmlEscape_spec; apply escape_spec_app|].
  split.
  - intro c. rewrite xmlEscape_spec. simpl. rewrite append_nil_r.
    destruct (is_special c) eqn:E; [reflexivity | now apply entity_of_plain].
  - split.
    + intros s H. rewrite xmlEscape_spec. now apply escape_spec_plain.
    + repeat split; reflexivity.
Qed.

Lemma has_special_app (a b : string) :
  has_special (a ++ b) = has_special a || has_special b.
Proof.
  induction a as [|c a IH]; simpl; [reflexivity|].
  now rewrite IH, orb_assoc.
Qed.

Lemma entity_of_special (c : ascii) :
  is_special c = true ->
  has_special (entity_of c) = true /\ 1 < String.length (entity_of c).
Proof.
  unfold is_special, entity_of.
  repeat (destruct (Ascii.eqb c _); simpl; try (split; [reflexivity | lia])).
  discriminate.
Qed.

Lemma entity_of_length (c : ascii) : 1 <= String.length (entity_of c).
Proof.
  unfold entity_of.
  repeat (destruct (Ascii.eqb c _); simpl; try lia).
Qed.

Lemma escape_spec_length (s : string) :
  String.length s <= String.length (escape_spec s).
Proof.
  induction s as [|c s IH]; simpl; [lia|].
  rewrite length_append. pose proof (entity_of_length c). lia.
Qed.

Lemma escape_spec_longer (s : string) :
  has_special s = true -> String.length s < String.length (escape_spec s).
Proof.
  induction s as [|c s IH]; simpl; [discriminate|].
  rewrite length_append. intro H.
  pose proof (escape_spec_length s).
  destruct (is_special c) eqn:E.
  - destruct (entity_of_special c E). lia.
  - simpl in H. specialize (IH H). pose proof (entity_of_length c). lia.
Qed.

Lemma escape_spec_keeps_special (s : string) :
  has_special s = true -> has_special (escape_spec s) = true.
Proof.
  induction s as [|c s IH]; simpl; [discriminate|].
  rewrite has_special_app. intro H.
  destruct (is_special c) eqn:E.
  - destruct (entity_of_special c E) as [-> _]. reflexivity.
  - simpl in H. rewrite (IH H). apply orb_true_r.
Qed.

(** C6.  [xmlEscape] is not idempotent: on every string that holds one of
    the five characters, escaping the escaped text gives a longer text,
    since the first pass leaves an ampersand that the second one escapes
    again. *)
Theorem xmlEscape_not_idempotent (s : string) :
  has_special s = true ->
  xmlEscape (xmlEscape s) <> xmlEscape s /\
  strings.ContainsByte (xmlEscape s) "&" = true /\
  String.length (xmlEscape s) < String.length (xmlEscape (xmlEscape s)).
Proof.
  intro H. rewrite !xmlEscape_spec.
  assert (L : String.length (escape_spec s)
              < String.length (escape_spec (escape_spec s)))
    by (apply escape_spec_longer, escape_spec_keeps_special, H).
  split; [|split; [|exact L]].
  - intro E. rewrite E in L. lia.
  - clear L. induction s as [|c s IH]; simpl in *; [discriminate|].
    assert (A : forall a b, strings.ContainsByte (a ++ b) "&"
                = strings.ContainsByte a "&" || strings.ContainsByte b "&").
    { clear. induction a as [|x a IHa]; intro b; simpl; [reflexivity|].
      now rewrite IHa, orb_assoc. }
    rewrite A. destruct (is_special c) eqn:E.
    + unfold is_special, entity_of in *.
      repeat (destruct (Ascii.eqb c _); simpl in *; try reflexivity).
      discriminate.
    + simpl in H. rewrite (IH H). apply orb_true_r.
Qed.

Lemma xmlEscape_not_idempotent_witness :
  xmlEscape (xmlEscape "a<b") <> xmlEscape "a<b" /\
  strings.ContainsByte (xmlEscape "a<b") "&" = true /\
  String.length (xmlEscape "a<b") < String.length (xmlEscape (xmlEscape "a<b")).
Proof. apply (xmlEscape_not_idempotent "a<b"). reflexivity. Defined.

(** ** The flattener *)

(** Induction on a tree whose children are a list of trees. *)
Lemma Node_induction (P : Node -> Prop) :
  (forall ty data child, Forall P child -> P (mkNode ty data child)) ->
  forall n, P n.
Proof.
  intro step.
  exact (fix ind (n : Node) : P n :=
           match n with
           | mkNode ty data child =>
               step ty data child
                 ((fix all (cs : list Node) : Forall P cs :=
                     match cs with
                     | [] => Forall_nil P
                     | c :: cs' => Forall_cons c (ind c) (all cs')
                     end) child)
           end).
Qed.

Lemma write_indent_spec (w : string) (level : nat) :
  write_indent w level = w ++ indent level.
Proof.
  revert w; induction level as [|k IH]; intro w; simpl.
  - now rewrite append_nil_r.
  - rewrite IH. unfold WriteString. now rewrite append_assoc.
Qed.

Lemma indent_length (level : nat) : String.length (indent level) = 2 * level.
Proof. induction level as [|k IH]; simpl; [reflexivity | rewrite IH; lia]. Qed.

Lemma walk_eq (ty : NodeType) (data : string) (child : list Node) (depth : nat) :
  walk (mkNode ty data child) depth =
  (depth, mkNode ty data child) :: walks child (S depth).
Proof.
  simpl. f_equal.
  induction child as [|c cs IH]; simpl; [reflexivity | now rewrite IH].
Qed.

Section FlattenerFacts.

Variable verbs : string -> string.

(** The body of [dumpLevel], with the loop over the children named. *)
Lemma dumpLevel_eq (w : string) (ty : NodeType) (data : string)
      (child : list Node) (level : nat) :
  dumpLevel verbs w (mkNode ty data child) level =
  let w := write_indent w level in
  match ty with
  | ErrorNode => (w, errors_New "unexpected ErrorNode")
  | DocumentNode => (w, errors_New "unexpected DocumentNode")
  | ElementNode => dumpRange verbs w child (level + 1)
  | TextNode =>
      dumpRange verbs (WriteString w (fmt.Sprintf0 verbs data)) child (level + 1)
  | CommentNode => (w, errors_New "COMMENT")
  | OtherNode => (w, errors_New "unknown node type")
  end.
Proof.
  assert (R : forall w0,
    (fix range (w : string) (cs : list Node) {struct cs} : string * error :=
       match cs with
       | [] => (w, nil_error)
       | c :: cs' =>
           match dumpLevel verbs w c (level + 1) with
           | (w', Some err) => (w', Some err)
           | (w', None) => range w' cs'
           end
       end) w0 child = dumpRange verbs w0 child (level + 1)).
  { induction child as [|c cs IH]; intro w0; simpl; [reflexivity|].
    destruct (dumpLevel verbs w0 c (level + 1)) as [w' [e|]]; [reflexivity|].
    apply IH. }
  destruct ty; cbn [dumpLevel]; cbv zeta; try reflexivity; apply R.
Qed.

Lemma written_app (a b : list (nat * Node)) :
  written verbs (a ++ b) = written verbs a ++ written verbs b.
Proof.
  unfold written. induction a as [|x a IH]; simpl; [reflexivity|].
  now rewrite IH, !append_assoc.
Qed.

Lemma first_error_app (a b : list (nat * Node)) :
  first_error (a ++ b) =
  match first_error a with Some ty => Some ty | None => first_error b end.
Proof.
  induction a as [|x a IH]; simpl; [reflexivity|].
  destruct (rejected (snd x)); [reflexivity | exact IH].
Qed.

Lemma visited_app (a b : list (nat * Node)) :
  visited (a ++ b) =
  match first_error a with
  | Some _ => visited a
  | None => (a ++ visited b)%list
  end.
Proof.
  induction a as [|x a IH]; simpl; [reflexivity|].
  destruct (rejected (snd x)); [reflexivity|].
  rewrite IH. now destruct (first_error a).
Qed.

Lemma visited_clean (a : list (nat * Node)) :
  first_error a = None -> visited a = a.
Proof.
  induction a as [|x a IH]; simpl; [reflexivity|].
  destruct (rejected (snd x)); [discriminate|].
  intro H. now rewrite IH.
Qed.

Lemma first_error_rejected (a : list (nat * Node)) (ty : NodeType) :
  first_error a = Some ty -> error_of (Some ty) <> None.
Proof.
  induction a as [|[d [t s cs]] a IH]; simpl; [discriminate|].
  unfold rejected; simpl. destruct t; simpl; try exact IH;
    intro H; injection H as <-; discriminate.
Qed.

(** What one call of [dumpLevel] leaves in the writer and returns: the
    indentation and text of the nodes it reaches, and the error of the
    first rejected one. *)
Lemma dumpLevel_spec (n : Node) :
  forall w level,
    dumpLevel verbs w n level =
    (w ++ written verbs (visited (walk n level)),
     error_of (first_error (walk n level))).
Proof.
  induction n as [ty data child IH] using Node_induction.
  intros w level.
  assert (R : forall w0 d,
    dumpRange verbs w0 child d =
    (w0 ++ written verbs (visited (walks child d)),
     error_of (first_error (walks child d)))).
  { clear w. induction IH as [|c cs Hc _ IHcs]; intros w0 d; simpl.
    - now rewrite append_nil_r.
    - rewrite Hc, visited_app, first_error_app.
      destruct (first_error (walk c d)) as [ty'|] eqn:E.
      + pose proof (first_error_rejected _ _ E) as NE.
        destruct (error_of (Some ty')); [reflexivity | contradiction].
      + simpl. rewrite IHcs, written_app, (visited_clean _ E).
        now rewrite append_assoc. }
  rewrite dumpLevel_eq, walk_eq, write_indent_spec. cbv zeta.
  rewrite Nat.add_1_r.
  destruct ty; cbn [visited first_error snd fst rejected Type_ html.Type_];
    unfold written; cbn [concat_map is_text Type_ html.Type_ snd fst error_of];
    rewrite ?R; unfold WriteString, written, errors_New;
    rewrite ?append_nil_r, ?append_assoc; reflexivity.
Qed.

Lemma dumpRange_spec (cs : list Node) (w : string) (level : nat) :
  dumpRange verbs w cs level =
  (w ++ written verbs (visited (walks cs level)),
   error_of (first_error (walks cs level))).
Proof.
  revert w; induction cs as [|c cs IH]; intro w; simpl.
  - now rewrite append_nil_r.
  - rewrite dumpLevel_spec, visited_app, first_error_app.
    destruct (first_error (walk c level)) as [ty'|] eqn:E.
    + pose proof (first_error_rejected _ _ E) as NE.
      destruct (error_of (Some ty')); [reflexivity | contradiction].
    + simpl. rewrite IH, written_app, (visited_clean _ E).
      now rewrite append_assoc.
Qed.

(** [dump]: the error of the first rejected node in document order and no
    text, or the text of all the nodes. *)
Lemma dump_spec (root : Node) :
  dump verbs (Some root) =
  match first_error (walks (Child root) 0) with
  | Some ty => (EmptyString, error_of (Some ty))
  | None => (written verbs (walks (Child root) 0), nil_error)
  end.
Proof.
  unfold dump. destruct (Child root) as [|c cs] eqn:E; [reflexivity|].
  cbn [List.length Nat.eqb]. rewrite dumpRange_spec. cbn [append].
  destruct (first_error (walks (c :: cs) 0)) as [ty|] eqn:F.
  - pose proof (first_error_rejected _ _ F) as NE.
    destruct (error_of (Some ty)); [reflexivity | contradiction].
  - now rewrite (visited_clean _ F).
Qed.

End FlattenerFacts.

Lemma first_error_none (l : list (nat * Node)) :
  forallb (fun dn => negb (rejected (snd dn))) l = true -> first_error l = None.
Proof.
  induction l as [|x l IH]; simpl; [reflexivity|].
  destruct (rejected (snd x)); simpl; [discriminate | exact IH].
Qed.

Lemma written_plain (verbs : string -> string) (l : list (nat * Node)) :
  forallb (fun dn => negb (is_text (snd dn)
                           && strings.ContainsByte (Data (snd dn)) "%")) l = true ->
  written verbs l = concat_map (fun dn => indent (fst dn) ++ own_text (snd dn)) l.
Proof.
  unfold written. induction l as [|x l IH]; simpl; [reflexivity|].
  intro H. apply andb_true_iff in H. destruct H as [Hx Hl].
  rewrite (IH Hl). f_equal. f_equal.
  unfold own_text, fmt.Sprintf0.
  destruct (is_text (snd x)); [|reflexivity].
  simpl in Hx. now destruct (strings.ContainsByte (Data (snd x)) "%").
Qed.

(** C1, as the code has it.  For every tree of element and text nodes
    whose texts hold no verb marker, [dump] returns no error, and its
    output is the concatenation, in document order, of what each node
    below the root gives: the indentation of its depth (two spaces for
    each level, the children of the root at depth 0), followed by its
    content if it is a text node.  Element nodes give their indentation
    too. *)
Theorem dump_element_text (verbs : string -> string) (root : Node) :
  only_element_text root = true ->
  percent_free root = true ->
  dump verbs (Some root) = (rendering root, nil_error).
Proof.
  intros Hk Hp. rewrite dump_spec.
  rewrite (first_error_none _ Hk).
  unfold rendering. now rewrite (written_plain verbs _ Hp).
Qed.

Lemma dump_element_text_witness :
  only_element_text doc_p_hi = true /\
  percent_free doc_p_hi = true /\
  dump no_verbs (Some doc_p_hi) = (rendering doc_p_hi, nil_error).
Proof.
  split; [reflexivity|]. split; [reflexivity|].
  apply (dump_element_text no_verbs doc_p_hi); reflexivity.
Defined.

(** C1, as it is worded, fails on the tree of the fragment <p>hi</p>: the
    text is at depth 3 and would follow six spaces, but the elements html,
    head, body and p have written 0, 2, 2 and 4 spaces before its own six. *)
Lemma dump_not_text_rendering :
  only_element_text doc_p_hi = true /\
  dump no_verbs (Some doc_p_hi) = ("              hi", nil_error) /\
  text_rendering doc_p_hi = "      hi" /\
  dump no_verbs (Some doc_p_hi) <> (text_rendering doc_p_hi, nil_error).
Proof.
  split; [reflexivity|]. split; [reflexivity|]. split; [reflexivity|].
  vm_compute. discriminate.
Qed.

Lemma first_error_kind (l : list (nat * Node)) (ty : NodeType) :
  first_error l = Some ty ->
  forall p : NodeType -> bool,
    existsb (fun dn => p (Type_ (snd dn))) l = false -> p ty = false.
Proof.
  induction l as [|x l IH]; simpl; [discriminate|].
  intros H p E. apply orb_false_iff in E. destruct E as [Ex El].
  destruct (rejected (snd x)).
  - injection H as <-. exact Ex.
  - exact (IH H p El).
Qed.

Lemma first_error_some (l : list (nat * Node)) (p : NodeType -> bool) :
  (forall n, p (Type_ n) = true -> rejected n = true) ->
  existsb (fun dn => p (Type_ (snd dn))) l = true ->
  exists ty, first_error l = Some ty.
Proof.
  intro Hp. induction l as [|x l IH]; simpl; [discriminate|].
  intro E. destruct (rejected (snd x)) eqn:R; [eauto|].
  apply orb_true_iff in E. destruct E as [E|E]; [|exact (IH E)].
  rewrite (Hp _ E) in R. discriminate.
Qed.

(** C8, as the code has it.  [dump] fails with the error of the first node
    in document order that [dumpLevel] rejects, and returns no text then:
    a tree with a comment node and no document, error or other unnamed
    node below the root fails with the comment error; a tree with a
    document or error node and no comment or other unnamed node fails with
    one of the two invalid-document errors; a root without children, and
    the nil root, give the empty string and no error. *)
Theorem dump_rejects (verbs : string -> string) (root : Node) :
  (forall ty, first_error (walks (Child root) 0) = Some ty ->
     dump verbs (Some root) = (EmptyString, error_of (Some ty)) /\
     error_of (Some ty) <> nil_error) /\
  (first_error (walks (Child root) 0) = None ->
     snd (dump verbs (Some root)) = nil_error) /\
  (contains is_comment root = true ->
   contains is_document_or_error root = false ->
   contains is_other root = false ->
     dump verbs (Some root) = (EmptyString, errors_New "COMMENT")) /\
  (contains is_document_or_error root = true ->
   contains is_comment root = false ->
   contains is_other root = false ->
     dump verbs (Some root) = (EmptyString, errors_New "unexpected ErrorNode") \/
     dump verbs (Some root) = (EmptyString, errors_New "unexpected DocumentNode")) /\
  (Child root = [] -> dump verbs (Some root) = (EmptyString, nil_error)) /\
  dump verbs None = (EmptyString, nil_error).
Proof.
  unfold contains. rewrite dump_spec.
  split; [|split; [|split; [|split; [|split]]]].
  - intros ty E. rewrite E. split; [reflexivity|].
    exact (first_error_rejected _ _ E).
  - intros ->. reflexivity.
  - intros Hc Hd Ho.
    assert (K : forall n, is_comment (Type_ n) = true -> rejected n = true)
      by (intros [[] ? ?]; simpl; intro; try discriminate; reflexivity).
    destruct (first_error_some _ _ K Hc) as [ty E].
    rewrite E.
    pose proof (first_error_kind _ _ E _ Hd).
    pose proof (first_error_kind _ _ E _ Ho).
    pose proof (first_error_rejected _ _ E).
    destruct ty; simpl in *; try discriminate; try contradiction; reflexivity.
  - intros Hd Hc Ho.
    assert (K : forall n, is_document_or_error (Type_ n) = true -> rejected n = true)
      by (intros [[] ? ?]; simpl; intro; try discriminate; reflexivity).
    destruct (first_error_some _ _ K Hd) as [ty E].
    rewrite E.
    pose proof (first_error_kind _ _ E _ Hc).
    pose proof (first_error_kind _ _ E _ Ho).
    pose proof (first_error_rejected _ _ E).
    destruct ty; simpl in *; try discriminate; try contradiction; auto.
  - intros ->. reflexivity.
  - reflexivity.
Qed.

Lemma dump_rejects_witness :
  dump no_verbs (Some doc_doctype_then_comment)
  = (EmptyString, errors_New "unknown node type") /\
  dump no_verbs (Some (mkNode DocumentNode "" [element_node "p" [comment_node "c"]]))
  = (EmptyString, errors_New "COMMENT") /\
  dump no_verbs (Some (mkNode DocumentNode "" [])) = (EmptyString, nil_error).
Proof.
  split; [|split].
  - exact (proj1 (proj1 (dump_rejects no_verbs doc_doctype_then_comment)
                    OtherNode eq_refl)).
  - exact (proj1 (proj2 (proj2 (dump_rejects no_verbs
             (mkNode DocumentNode "" [element_node "p" [comment_node "c"]]))))
             eq_refl eq_refl eq_refl).
  - exact (proj1 (proj2 (proj2 (proj2 (proj2 (dump_rejects no_verbs
             (mkNode DocumentNode "" []))))))
             eq_refl).
Defined.

(** C8, as it is worded, fails on two trees: one holds an error node below
    the root and fails with the comment error, since a comment comes
    first; the other holds a comment and fails with the error of the error
    node that comes first. *)
Lemma dump_first_rejected_decides :
  (contains is_document_or_error doc_comment_then_error = true /\
   dump no_verbs (Some doc_comment_then_error) = (EmptyString, errors_New "COMMENT")) /\
  (contains is_comment doc_error_then_comment = true /\
   dump no_verbs (Some doc_error_then_comment)
   = (EmptyString, errors_New "unexpected ErrorNode")).
Proof. repeat split. Qed.

(** C10.  [dumpLevel] writes the indentation of its level for every node,
    before it looks at the kind: whatever the node, the writer holds what
    it held, then two spaces for each level, then the rest; an element node
    adds nothing of its own before its children; a rejected node leaves
    its indentation in the writer and returns its error; and [dump]
    returns the empty string whenever it returns an error. *)
Theorem dumpLevel_indents (verbs : string -> string) (w : string)
        (n : Node) (level : nat) :
  (exists rest, fst (dumpLevel verbs w n level) = w ++ indent level ++ rest) /\
  (is_element n = true ->
     dumpLevel verbs w n level
     = dumpRange verbs (w ++ indent level) (Child n) (level + 1)) /\
  (rejected n = true ->
     dumpLevel verbs w n level = (w ++ indent level, error_of (Some (Type_ n))) /\
     error_of (Some (Type_ n)) <> nil_error) /\
  String.length (indent level) = 2 * level /\
  (forall root e, snd (dump verbs root) = Some e -> fst (dump verbs root) = EmptyString).
Proof.
  split; [|split; [|split; [|split]]].
  - destruct n as [ty data child].
    rewrite dumpLevel_eq, write_indent_spec. cbv zeta.
    destruct ty; cbn [fst]; try (exists EmptyString; now rewrite append_nil_r).
    + rewrite dumpRange_spec. cbn [fst]. unfold WriteString.
      eexists. rewrite !append_assoc. reflexivity.
    + rewrite dumpRange_spec. cbn [fst].
      eexists. rewrite !append_assoc. reflexivity.
  - destruct n as [ty data child]. rewrite dumpLevel_eq, write_indent_spec.
    destruct ty; simpl; try discriminate. reflexivity.
  - destruct n as [ty data child]. rewrite dumpLevel_eq, write_indent_spec.
    destruct ty; simpl; try discriminate; intros _; split;
      try reflexivity; discriminate.
  - apply indent_length.
  - intros [root|] e; [|discriminate].
    rewrite dump_spec. destruct (first_error (walks (Child root) 0)); simpl;
      [reflexivity | discriminate].
Qed.

Lemma dumpLevel_indents_witness :
  dumpLevel no_verbs "x" (element_node "b" []) 2 = ("x    ", nil_error) /\
  dumpLevel no_verbs "x" (comment_node "c") 1 = ("x  ", errors_New "COMMENT").
Proof.
  split.
  - exact (proj1 (proj2 (dumpLevel_indents no_verbs "x" (element_node "b" []) 2))
             eq_refl).
  - exact (proj1 (proj1 (proj2 (proj2
             (dumpLevel_indents no_verbs "x" (comment_node "c") 1))) eq_refl)).
Defined.

(** ** Lines *)

Lemma Split_cons (s : string) (sep : ascii) :
  exists l ls, strings.Split s sep = l :: ls.
Proof.
  induction s as [|c s [l [ls E]]]; simpl; [eauto|].
  destruct (Ascii.eqb c sep); [eauto|]. rewrite E. eauto.
Qed.

Lemma Split_length (s : string) (sep : ascii) :
  List.length (strings.Split s sep) = S (strings.Count s sep).
Proof.
  induction s as [|c s IH]; simpl; [reflexivity|].
  destruct (Ascii.eqb c sep); simpl; [now rewrite IH|].
  destruct (strings.Split s sep); simpl in *; lia.
Qed.

Lemma concat_cons2 (sep x y : string) (ys : list string) :
  String.concat sep (x :: y :: ys) = x ++ sep ++ String.concat sep (y :: ys).
Proof. reflexivity. Qed.

(** Joining the lines of a text gives the text back. *)
Lemma Join_Split (s : string) :
  strings.Join (strings.Split s LF) nl = s.
Proof.
  unfold strings.Join.
  induction s as [|c s IH]; cbn [strings.Split]; [reflexivity|].
  destruct (Split_cons s LF) as [l [ls E]]. rewrite E in *.
  destruct (Ascii.eqb_spec c LF) as [->|N].
  - rewrite concat_cons2, IH. reflexivity.
  - destruct ls as [|l' ls].
    + simpl in *. now rewrite IH.
    + rewrite concat_cons2 in *. rewrite append_cons, IH. reflexivity.
Qed.

Lemma Split_line (l : string) (s : string) :
  strings.ContainsByte l LF = false ->
  strings.Split (l ++ nl ++ s) LF = l :: strings.Split s LF.
Proof.
  induction l as [|c l IH]; [reflexivity|].
  cbn [strings.Split append strings.ContainsByte].
  intro H. apply orb_false_iff in H. destruct H as [Hc Hl].
  rewrite Hc, (IH Hl). reflexivity.
Qed.

Lemma Split_last (l : string) :
  strings.ContainsByte l LF = false -> strings.Split l LF = [l].
Proof.
  induction l as [|c l IH]; simpl; [reflexivity|].
  intro H. apply orb_false_iff in H. destruct H as [Hc Hl].
  now rewrite Hc, (IH Hl).
Qed.

(** Splitting the join of lines that hold no newline gives the lines. *)
Lemma Split_Join (l : string) (ls : list string) :
  forallb (fun x => negb (strings.ContainsByte x LF)) (l :: ls) = true ->
  strings.Split (strings.Join (l :: ls) nl) LF = l :: ls.
Proof.
  unfold strings.Join. revert l; induction ls as [|l' ls IH]; intros l H.
  - simpl in *. apply Split_last. now destruct (strings.ContainsByte l LF).
  - cbn [forallb] in H. apply andb_true_iff in H. destruct H as [Hl H].
    rewrite concat_cons2, Split_line by now destruct (strings.ContainsByte l LF).
    f_equal. exact (IH l' H).
Qed.

Lemma substring_all (s : string) : substring 0 (String.length s) s = s.
Proof. induction s as [|c s IH]; simpl; [reflexivity | now rewrite IH]. Qed.

Lemma slice_to_app (p r : string) : slice_to (p ++ r) (String.length p) = p.
Proof.
  unfold slice_to. induction p as [|c p IH]; simpl.
  - now destruct r.
  - now rewrite IH.
Qed.

Lemma slice_from_app (p r : string) : slice_from (p ++ r) (String.length p) = r.
Proof.
  unfold slice_from. rewrite length_append.
  replace (String.length p + String.length r - String.length p)
    with (String.length r) by lia.
  induction p as [|c p IH]; simpl; [apply substring_all | exact IH].
Qed.

Lemma string_cut (n : nat) (s : string) :
  n <= String.length s ->
  exists p r, s = p ++ r /\ String.length p = n.
Proof.
  revert s; induction n as [|n IH]; intros s H.
  - exists EmptyString, s. split; reflexivity.
  - destruct s as [|c s]; simpl in H; [lia|].
    destruct (IH s) as [p [r [E L]]]; [lia|].
    exists (String c p), r. simpl. now rewrite <- E, L.
Qed.

(** A string of at least [n] bytes is its two slices at [n]. *)
Lemma slices (n : nat) (s : string) :
  n <= String.length s ->
  s = slice_to s n ++ slice_from s n /\
  String.length (slice_from s n) = String.length s - n.
Proof.
  intro H. destruct (string_cut n s H) as [p [r [-> L]]]. subst n.
  rewrite slice_to_app, slice_from_app, length_append. split; [reflexivity | lia].
Qed.

(** ** The draft *)

Lemma createIssue_draft_header (prefix_ line : string) :
  String.length prefix_ < String.length line ->
  (slice_to line (String.length prefix_) =? prefix_)%string = true ->
  line = prefix_ ++ slice_from line (String.length prefix_) /\
  slice_from line (String.length prefix_) <> EmptyString.
Proof.
  intros L E. apply String.eqb_eq in E.
  destruct (slices (String.length prefix_) line) as [S1 S2]; [lia|].
  rewrite E in S1. split; [exact S1|].
  intro Z. rewrite Z in S2. simpl in S2. lia.
Qed.

(** C3, as the code has it.  The draft is accepted exactly when the text
    (with CR LF read as LF on Windows) has at least four lines, line 0 is
    the prefix [from: ] followed by at least one byte and line 1 is the
    prefix [title: ] followed by at least one byte; the author and the
    title are then what follows the prefixes, line 2 is not read, and the
    body is the lines from index 3 on joined by newlines.  Every rejection
    ends in the one fatal message.  The samples of the specification come
    out as it says. *)
Theorem createIssue_draft_spec :
  (forall windows text from title body,
     createIssue_draft windows text = Ok (from, title, body) <->
     exists separator line3 rest,
       strings.Split (if windows then strings.Replace_crlf_lf text else text) LF
       = ("from: " ++ from) :: ("title: " ++ title) :: separator :: line3 :: rest /\
       from <> EmptyString /\ title <> EmptyString /\
       body = strings.Join (line3 :: rest) nl) /\
  (forall windows text msg,
     createIssue_draft windows text = Fatal msg -> msg = "failed to create issue") /\
  createIssue_draft false sample_draft
  = Ok ("Alice", "Bug X", "It crashes." ++ nl ++ "Every time.") /\
  createIssue_draft false ("from: Alice" ++ nl ++ "title: Bug X" ++ nl ++ "--------------")
  = Fatal "failed to create issue" /\
  createIssue_draft false
    ("From: Alice" ++ nl ++ "title: Bug X" ++ nl ++ "--------------" ++ nl ++ "It crashes.")
  = Fatal "failed to create issue".
Proof.
  split; [|split; [|repeat split]].
  - intros windows text from title body. unfold createIssue_draft.
    set (lines := strings.Split _ LF). clearbody lines. split.
    + destruct lines as [|l0 [|l1 [|l2 [|l3 rest]]]];
        try (intro H; discriminate H).
      replace (List.length (l0 :: l1 :: l2 :: l3 :: rest) <? 4)%nat with false
        by (symmetry; apply Nat.ltb_ge; simpl; lia).
      cbn [nth skipn].
      destruct (String.length l0 <? 7)%nat eqn:L0;
        [cbn [orb]; intro H; discriminate H|].
      destruct (slice_to l0 6 =? "from: ")%string eqn:P0;
        [|cbn [orb negb]; intro H; discriminate H].
      cbn [orb negb].
      destruct (String.length l1 <? 8)%nat eqn:L1;
        [cbn [orb]; intro H; discriminate H|].
      destruct (slice_to l1 7 =? "title: ")%string eqn:P1;
        [|cbn [orb negb]; intro H; discriminate H].
      cbn [orb negb]. intro H. injection H as <- <- <-.
      apply Nat.ltb_ge in L0, L1.
      destruct (createIssue_draft_header "from: " l0) as [E0 N0];
        [simpl; lia | exact P0 |].
      destruct (createIssue_draft_header "title: " l1) as [E1 N1];
        [simpl; lia | exact P1 |].
      exists l2, l3, rest. cbn [String.length] in *.
      rewrite <- E0, <- E1. repeat split; assumption.
    + intros [l2 [l3 [rest [-> [N0 [N1 ->]]]]]].
      replace (List.length (("from: " ++ from) :: ("title: " ++ title)
                              :: l2 :: l3 :: rest) <? 4)%nat with false
        by (symmetry; apply Nat.ltb_ge; simpl; lia).
      cbn [nth skipn].
      assert (F : forall p s, s <> EmptyString ->
                (String.length (p ++ s) <? S (String.length p))%nat = false).
      { intros p s N. apply Nat.ltb_ge. rewrite length_append.
        destruct s; [contradiction | simpl; lia]. }
      pose proof (F "from: " from N0) as F0.
      pose proof (F "title: " title N1) as F1.
      cbn [String.length] in F0, F1. rewrite F0, F1.
      change 6 with (String.length "from: ").
      change 7 with (String.length "title: ").
      rewrite !slice_to_app, !slice_from_app, !String.eqb_refl.
      reflexivity.
  - intros windows text msg. unfold createIssue_draft.
    repeat match goal with
           | |- context [if ?b then _ else _] => destruct b
           end; intro H; try discriminate; now injection H as <-.
Qed.

(** C3, as it is worded, fails on a draft whose first line is the prefix
    [from: ] alone: the text has four lines and both prefixes, and is
    rejected; so is the template that the program itself writes. *)
Lemma createIssue_draft_empty_author :
  (List.length (strings.Split ("from: " ++ nl ++ "title: Bug X" ++ nl ++ "--" ++ nl ++ "b") LF) = 4 /\
   prefix "from: " "from: " = true /\
   prefix "title: " "title: Bug X" = true /\
   createIssue_draft false ("from: " ++ nl ++ "title: Bug X" ++ nl ++ "--" ++ nl ++ "b")
   = Fatal "failed to create issue") /\
  (4 <= List.length (strings.Split contents LF) /\
   prefix "from: " (nth 0 (strings.Split contents LF) EmptyString) = true /\
   prefix "title: " (nth 1 (strings.Split contents LF) EmptyString) = true /\
   createIssue_draft false contents = Fatal "failed to create issue").
Proof.
  split; (split; [vm_compute; try reflexivity; lia|]); repeat split.
Qed.

(** ** The login *)

(** C4.  After a 200 response, [authLogin] returns the third of the lines
    of the body, whatever it holds: for every body that joins at least
    three lines, the token is the line of index 2.  When the body has
    fewer than three lines (fewer than two newlines), the index expression
    is out of range and the process panics. *)
Theorem authLogin_third_line (W : World) (config : list (string * string))
        (st : State) (res : Response) :
  RoundTrip W (List.length (filter is_network (trace st))) = Some res ->
  StatusCode res = 200%Z ->
  (forall token, nth_error (strings.Split (Body res) LF) 2 = Some token ->
     authLogin W config st = (posted st config, Returned token)) /\
  (forall l0 l1 token rest,
     forallb no_newline (l0 :: l1 :: token :: rest) = true ->
     Body res = strings.Join (l0 :: l1 :: token :: rest) nl ->
     authLogin W config st = (posted st config, Returned token)) /\
  (List.length (strings.Split (Body res) LF) < 3 ->
     authLogin W config st = (posted st config, Panicked "index out of range")) /\
  (List.length (strings.Split (Body res) LF) < 3 <-> strings.Count (Body res) LF < 2).
Proof.
  intros HR HS.
  assert (E : authLogin W config st =
              match nth_error (strings.Split (Body res) LF) 2 with
              | Some line => (posted st config, Returned line)
              | None => (posted st config, Panicked "index out of range")
              end).
  { unfold authLogin, http_PostForm, exchange, bind. rewrite HR, HS.
    cbn [Z.eqb Pos.eqb negb fst snd].
    now destruct (nth_error (strings.Split (Body res) LF) 2). }
  split; [|split; [|split]].
  - intros token H. now rewrite E, H.
  - intros l0 l1 token rest Hl HB. rewrite E, HB.
    unfold no_newline in Hl. now rewrite (Split_Join _ _ Hl).
  - intro H. rewrite E.
    destruct (nth_error (strings.Split (Body res) LF) 2) eqn:N; [|reflexivity].
    assert (nth_error (strings.Split (Body res) LF) 2 <> None) as K by congruence.
    apply nth_error_Some in K. lia.
  - rewrite Split_length. lia.
Qed.

Lemma authLogin_third_line_witness :
  authLogin (world_with (Some login_odd)) sample_config start
  = (posted start sample_config, Returned "third") /\
  authLogin (world_with (Some login_short)) sample_config start
  = (posted start sample_config, Panicked "index out of range").
Proof.
  split.
  - exact (proj1 (authLogin_third_line (world_with (Some login_odd)) sample_config
                    start login_odd eq_refl eq_refl) "third" eq_refl).
  - refine (proj1 (proj2 (proj2 (authLogin_third_line
              (world_with (Some login_short)) sample_config
              start login_short eq_refl eq_refl))) _).
    vm_compute. lia.
Defined.

(** ** The document of a new issue *)

Lemma ContainsByte_app (a b : string) (c : ascii) :
  strings.ContainsByte (a ++ b) c
  = strings.ContainsByte a c || strings.ContainsByte b c.
Proof.
  induction a as [|x a IH]; simpl; [reflexivity|].
  now rewrite IH, orb_assoc.
Qed.

(** An escaped text opens no markup and closes none. *)
Lemma xmlEscape_no_markup (s : string) :
  strings.ContainsByte (xmlEscape s) "<" = false /\
  strings.ContainsByte (xmlEscape s) ">" = false.
Proof.
  rewrite xmlEscape_spec.
  induction s as [|c s [IH1 IH2]]; simpl; [split; reflexivity|].
  rewrite !ContainsByte_app, IH1, IH2, !orb_false_r.
  unfold entity_of.
  destruct (Ascii.eqb_spec c "<") as [->|N1]; [split; reflexivity|].
  destruct (Ascii.eqb_spec c ">") as [->|N2]; [split; reflexivity|].
  repeat (destruct (Ascii.eqb c _); [split; reflexivity|]).
  simpl. rewrite !orb_false_r.
  split; apply Ascii.eqb_neq; assumption.
Qed.

(** Character data without [<] is read in one piece. *)
Lemma scan_chardata (e acc r : string) :
  strings.ContainsByte e "<" = false ->
  scan false acc (e ++ r) = scan false (acc ++ e) r.
Proof.
  revert acc; induction e as [|c e IH]; intros acc H.
  - now rewrite append_nil_r.
  - simpl in H. apply orb_false_iff in H. destruct H as [Hc He].
    cbn [append scan]. rewrite Hc, (IH _ He), append_snoc. reflexivity.
Qed.

Section Document.

Variables title body from : string.

Local Arguments xmlEscape : simpl never.

Lemma createIssue_document_scan :
  xml_tokens (createIssue_document title body from)
  = document_tokens title body from.
Proof.
  unfold xml_tokens, createIssue_document, document_tokens.
  simpl.
  repeat (rewrite scan_chardata by apply xmlEscape_no_markup; simpl).
  reflexivity.
Qed.

End Document.

(** C7.  Read as markup and character data, the document sent for a draft
    is the same sequence for every draft, but for the escaped title, body
    and author: the elements it opens are entry, title, content, author,
    name, the wrapper issues:updates, issues:summary, issues:status and two
    issues:label; the status is Started, the labels are -Type-Defect and
    -Priority-Medium, the summary is the escaped title as the title is;
    no id, published, updated, link, cc, owner, stars or state element is
    among them. *)
Theorem createIssue_document_fields (title body from : string) :
  let doc := xml_tokens (createIssue_document title body from) in
  doc = document_tokens title body from /\
  element_names doc
  = ["entry"; "title"; "content"; "author"; "name"; "issues:updates";
     "issues:summary"; "issues:status"; "issues:label"; "issues:label"] /\
  texts_of "issues:status" doc = ["Started"] /\
  texts_of "issues:label" doc = ["-Type-Defect"; "-Priority-Medium"] /\
  texts_of "issues:summary" doc = [xmlEscape title] /\
  texts_of "title" doc = [xmlEscape title] /\
  texts_of "content" doc = [xmlEscape body] /\
  texts_of "name" doc = [xmlEscape from] /\
  forallb (fun name => negb (existsb (String.eqb name) (element_names doc)))
    ["id"; "published"; "updated"; "link"; "issues:cc"; "issues:owner";
     "issues:stars"; "issues:state"] = true.
Proof.
  cbv zeta. rewrite createIssue_document_scan.
  repeat split.
Qed.

(** ** The process *)

Lemma extends_ret {A} (a : A) : extends (ret a).
Proof. intro st. exists []. simpl. now rewrite app_nil_r. Qed.

Lemma extends_os_Exit {A} (code : Z) : extends (@os_Exit A code).
Proof. intro st. exists []. simpl. now rewrite app_nil_r. Qed.

Lemma extends_panic {A} (msg : string) : extends (@panic A msg).
Proof. intro st. exists []. simpl. now rewrite app_nil_r. Qed.

Lemma extends_get_project : extends get_project.
Proof. intro st. exists []. simpl. now rewrite app_nil_r. Qed.

Lemma extends_emit (e : Event) : extends (emit e).
Proof. intro st. exists [e]. reflexivity. Qed.

Lemma extends_exchange (W : World) (e : Event) : extends (exchange W e).
Proof. intro st. exists [e]. reflexivity. Qed.

Lemma extends_bind {A B} (p : Proc A) (k : A -> Proc B) :
  extends p -> (forall a, extends (k a)) -> extends (bind p k).
Proof.
  intros Hp Hk st. unfold bind.
  destruct (Hp st) as [evs E].
  destruct (p st) as [st' [a|code|msg]]; simpl in E.
  - destruct (Hk a st') as [evs' E']. exists (evs ++ evs')%list.
    now rewrite E', E, app_assoc.
  - exists evs. exact E.
  - exists evs. exact E.
Qed.

Lemma extends_log_Fatal {A} (msg : string) (operand : option string) :
  extends (@log_Fatal A msg operand).
Proof.
  apply extends_bind; [apply extends_emit | intro; apply extends_os_Exit].
Qed.

Lemma extends_for_range {A} (l : list A) (f : A -> Proc unit) :
  (forall a, extends (f a)) -> extends (for_range l f).
Proof.
  intro Hf. induction l as [|x l IH]; simpl.
  - apply extends_ret.
  - apply extends_bind; [apply Hf | intro; exact IH].
Qed.

(** One step of the proof that a computation extends the trace. *)
Ltac extends_step :=
  first
    [ apply extends_ret | apply extends_os_Exit | apply extends_panic
    | apply extends_get_project | apply extends_emit | apply extends_exchange
    | apply extends_log_Fatal
    | apply extends_bind; [|intro]
    | apply extends_for_range; intro
    | match goal with
      | |- extends (match ?x with _ => _ end) => destruct x
      end ].

Section ProcessFacts.

Variable W : World.

Lemma extends_fetch (auth url m1 m2 m3 m4 : string) :
  extends (fetch W auth url m1 m2 m3 m4).
Proof. unfold fetch, http_Do. repeat extends_step. Qed.

Lemma extends_render (content : string) : extends (render W content).
Proof. unfold render. repeat extends_step. Qed.

Lemma extends_showIssue (auth id : string) : extends (showIssue W auth id).
Proof.
  unfold showIssue.
  repeat first [apply extends_fetch | apply extends_render | extends_step].
Qed.

Lemma extends_searchIssues (auth word : string) :
  extends (searchIssues W auth word).
Proof. unfold searchIssues. repeat first [apply extends_fetch | extends_step]. Qed.

Lemma extends_showIssues (auth : string) : extends (showIssues W auth).
Proof. unfold showIssues. repeat first [apply extends_fetch | extends_step]. Qed.

Lemma extends_showComments (auth id : string) :
  extends (showComments W auth id).
Proof.
  unfold showComments.
  repeat first [apply extends_fetch | apply extends_render | extends_step].
Qed.

Lemma extends_createIssue (auth : string) : extends (createIssue W auth).
Proof.
  unfold createIssue, http_Do.
  repeat first [extends_step
               | match goal with
                 | |- extends (let '(_, _) := ?x in _) => destruct x
                 end].
Qed.

(** What [main] does once the login has returned. *)
Lemma extends_dispatch (fl : Flags) (auth : string) :
  extends
    (if create fl then createIssue W auth
     else if (0 <? String.length (search fl))%nat then searchIssues W auth (search fl)
     else if (List.length (args fl) =? 0)%nat then showIssues W auth
     else
       for_range (args fl)
         (fun id =>
            showIssue W auth id ;;;
            if comment fl then showComments W auth id else ret tt)).
Proof.
  repeat first
    [ apply extends_createIssue | apply extends_searchIssues
    | apply extends_showIssues | apply extends_showIssue
    | apply extends_showComments | extends_step ].
Qed.

(** [getConfig] from the start: a fatal message and exit 1, or the map
    with no event. *)
Lemma getConfig_start :
  (exists msg st, getConfig W start = (st, Exited 1) /\ trace st = [EvFatal msg None]) \/
  (exists config st, getConfig W start = (st, Returned config) /\ trace st = []
                     /\ settings_json W = SettingsMap config).
Proof.
  assert (F : forall msg, exists m st,
             @log_Fatal (list (string * string)) msg None start = (st, Exited 1)
             /\ trace st = [EvFatal m None])
    by (intro msg; eexists _, _; split; reflexivity).
  unfold getConfig.
  destruct (settings_json W) as [| |config]; [left; apply F | left; apply F |].
  destruct (config_lookup config "email"); [|left; apply F].
  destruct (config_lookup config "password"); [|left; apply F].
  destruct (config_lookup config "project"); right;
    eexists _, _; repeat split; reflexivity.
Qed.

End ProcessFacts.

Lemma bind_Returned {A B} (p : Proc A) (k : A -> Proc B) (st st' : State) (a : A) :
  p st = (st', Returned a) -> bind p k st = k a st'.
Proof. unfold bind. now intros ->. Qed.

Lemma bind_Exited {A B} (p : Proc A) (k : A -> Proc B) (st st' : State) (code : Z) :
  p st = (st', Exited code) -> bind p k st = (st', Exited code).
Proof. unfold bind. now intros ->. Qed.

Lemma bind_Panicked {A B} (p : Proc A) (k : A -> Proc B) (st st' : State)
      (msg : string) :
  p st = (st', Panicked msg) -> bind p k st = (st', Panicked msg).
Proof. unfold bind. now intros ->. Qed.

(** The login from a state without events, by the first answer of the
    network. *)
Lemma authLogin_first (W : World) (config : list (string * string)) (st : State) :
  trace st = [] ->
  exists st' o,
    authLogin W config st = (st', o) /\
    ((exists auth res, o = Returned auth /\ RoundTrip W 0 = Some res /\
                       StatusCode res = 200%Z /\
                       nth_error (strings.Split (Body res) LF) 2 = Some auth /\
                       st' = posted st config) \/
     ((o = Exited 1 \/
       (o = Panicked "index out of range" /\
        exists res, RoundTrip W 0 = Some res /\ StatusCode res = 200%Z)) /\
      exists evs, trace st' = EvPostForm login_url (login_values config) :: evs /\
                  forallb (fun e => negb (is_feed_request e)) evs = true)).
Proof.
  intro T. unfold authLogin, http_PostForm, exchange, bind. rewrite T.
  cbn [filter List.length app].
  destruct (RoundTrip W 0) as [res|] eqn:R.
  - destruct (StatusCode res =? 200)%Z eqn:S; cbn [negb].
    + apply Z.eqb_eq in S.
      destruct (nth_error (strings.Split (Body res) LF) 2) as [auth|] eqn:N.
      * eexists _, _. split; [reflexivity|]. left. exists auth, res.
        unfold posted. rewrite T. repeat split; assumption.
      * eexists _, _. split; [reflexivity|]. right. split.
        -- right. split; [reflexivity|]. exists res. split; [reflexivity | exact S].
        -- exists []. split; reflexivity.
    + eexists _, _. split; [reflexivity|]. right. split; [left; reflexivity|].
      eexists. split; reflexivity.
  - eexists _, _. split; [reflexivity|]. right. split; [left; reflexivity|].
    eexists. split; reflexivity.
Qed.

(** The shape of every run: no exchange with the network at all and exit
    1, or the login first, and then either it was answered by a 200
    response or no feed request follows and the process exits with 1. *)
Lemma run_shape (W : World) (fl : Flags) :
  (forallb (fun e => negb (is_network e)) (trace (fst (run W fl))) = true /\
   snd (run W fl) = Exited 1) \/
  (exists values evs,
     trace (fst (run W fl)) = EvPostForm login_url values :: evs /\
     ((exists res, RoundTrip W 0 = Some res /\ StatusCode res = 200%Z) \/
      (forallb (fun e => negb (is_feed_request e)) evs = true /\
       snd (run W fl) = Exited 1))).
Proof.
  unfold run, main.
  destruct (1 <? List.length (args fl))%nat; [left; split; reflexivity|].
  destruct (getConfig_start W) as [[msg [st [E T]]]|[config [st [E [T _]]]]].
  - left. rewrite (bind_Exited _ _ _ _ _ E). cbn [fst snd]. rewrite T.
    split; reflexivity.
  - rewrite (bind_Returned _ _ _ _ _ E).
    destruct (authLogin_first W config st T) as [st' [o [EA H]]].
    right. exists (login_values config).
    destruct H as [[auth [res [-> [R [S [_ ->]]]]]]|[Ho [evs [T' F]]]].
    + rewrite (bind_Returned _ _ _ _ _ EA).
      destruct (extends_dispatch W fl auth (posted st config)) as [evs Hevs].
      exists evs. split; [|left; eauto].
      rewrite Hevs. unfold posted. cbn [trace]. now rewrite T.
    + exists evs.
      destruct Ho as [->|[-> [res [R S]]]].
      * rewrite (bind_Exited _ _ _ _ _ EA). cbn [fst snd].
        split; [exact T'|]. right. split; [exact F | reflexivity].
      * rewrite (bind_Panicked _ _ _ _ _ EA). cbn [fst snd].
        split; [exact T'|]. left. eauto.
Qed.

(** C9.  In every run, a feed request is never the first event: the login
    form was posted before it, and the login was answered by a 200
    response.  When the login is answered by another status (403, say),
    the run holds no feed request at all and the process exits with
    status 1. *)
Theorem login_precedes_feed (W : World) (fl : Flags) :
  (forall i req,
     nth_error (trace (fst (run W fl))) i = Some (EvDo req) ->
     0 < i /\
     (exists values,
        nth_error (trace (fst (run W fl))) 0 = Some (EvPostForm login_url values)) /\
     (exists res, RoundTrip W 0 = Some res /\ StatusCode res = 200%Z)) /\
  (forall res,
     RoundTrip W 0 = Some res -> StatusCode res <> 200%Z ->
     forallb (fun e => negb (is_feed_request e)) (trace (fst (run W fl))) = true /\
     snd (run W fl) = Exited 1).
Proof.
  destruct (run_shape W fl) as [[N X]|[values [evs [T H]]]].
  - assert (F : forallb (fun e => negb (is_feed_request e))
                  (trace (fst (run W fl))) = true).
    { rewrite forallb_forall in *. intros e He. specialize (N e He).
      now destruct e. }
    split.
    + intros i req Hi. apply nth_error_In in Hi.
      rewrite forallb_forall in F. specialize (F _ Hi). discriminate.
    + intros. split; assumption.
  - rewrite T. split.
    + intros i req Hi. destruct i as [|i]; [discriminate|].
      cbn [nth_error] in Hi.
      destruct H as [H|[F _]].
      * split; [lia|]. split; [exists values; reflexivity | exact H].
      * apply nth_error_In in Hi. rewrite forallb_forall in F.
        specialize (F _ Hi). discriminate.
    + intros res R S. destruct H as [[res' [R' S']]|[F X]].
      * rewrite R in R'. injection R' as <-. contradiction.
      * split; [exact F | exact X].
Qed.

Lemma login_precedes_feed_witness :
  (forallb (fun e => negb (is_feed_request e))
     (trace (fst (run world_403 (flags_of ["7"])))) = true /\
   snd (run world_403 (flags_of ["7"])) = Exited 1) /\
  (0 < 1 /\
   (exists values,
      nth_error (trace (fst (run world_ok (flags_of ["7"])))) 0
      = Some (EvPostForm login_url values)) /\
   (exists res, RoundTrip world_ok 0 = Some res /\ StatusCode res = 200%Z)).
Proof.
  split.
  - refine (proj2 (login_precedes_feed world_403 (flags_of ["7"]))
              login_forbidden eq_refl _).
    discriminate.
  - exact (proj1 (login_precedes_feed world_ok (flags_of ["7"])) 1
             (issue_request "go" "Auth=tok" "7") eq_refl).
Defined.

Lemma prefix_bind_l {A B} (p : Proc A) (k : A -> Proc B) (st : State)
      (l : list Event) :
  (exists evs, trace (fst (p st)) = (l ++ evs)%list) ->
  (forall a, extends (k a)) ->
  exists evs, trace (fst (bind p k st)) = (l ++ evs)%list.
Proof.
  intros [evs E] Hk. unfold bind.
  destruct (p st) as [st' [a|code|msg]]; cbn [fst] in *; eauto.
  destruct (Hk a st') as [evs' E']. exists (evs ++ evs')%list.
  now rewrite E', E, app_assoc.
Qed.

Lemma getConfig_ok (W : World) (config : list (string * string)) :
  settings_json W = SettingsMap config ->
  config_lookup config "email" <> None ->
  config_lookup config "password" <> None ->
  getConfig W start
  = ({| trace := [];
        project := match config_lookup config "project" with
                   | Some v => v
                   | None => "go"
                   end |}, Returned config).
Proof.
  intros S E P. unfold getConfig, config_index. rewrite S.
  destruct (config_lookup config "email"); [|contradiction].
  destruct (config_lookup config "password"); [|contradiction].
  now destruct (config_lookup config "project").
Qed.

Lemma authLogin_ok (W : World) (config : list (string * string)) (st : State)
      (res : Response) (token : string) :
  RoundTrip W (List.length (filter is_network (trace st))) = Some res ->
  StatusCode res = 200%Z ->
  nth_error (strings.Split (Body res) LF) 2 = Some token ->
  authLogin W config st = (posted st config, Returned token).
Proof.
  intros R S N. unfold authLogin, http_PostForm, exchange, bind.
  now rewrite R, S, N.
Qed.

(** [showIssue] sends its request first. *)
Lemma showIssue_request (W : World) (auth id : string) (st : State) :
  NewRequest_ok W (URL (issue_request (project st) auth id)) = true ->
  exists evs,
    trace (fst (showIssue W auth id st))
    = ((trace st ++ [EvDo (issue_request (project st) auth id)]) ++ evs)%list.
Proof.
  intro N. unfold showIssue.
  rewrite (bind_Returned get_project _ st st (project st) eq_refl).
  apply prefix_bind_l.
  - unfold fetch, http_NewRequest. cbn [URL issue_request] in N. rewrite N.
    apply prefix_bind_l.
    + exists []. now rewrite app_nil_r.
    + intro res. repeat extends_step.
  - intro b. repeat first [apply extends_render | extends_step].
Qed.

(** C2, as the code has it.  With two or more positional arguments [main]
    prints the usage text and exits with status 1, whatever the flags:
    it reads no configuration and sends nothing.  The loop over the
    arguments runs with one argument only: without -C and -s, once the
    configuration is read and the login answered, the request for that
    issue is what follows the login. *)
Theorem main_positional (W : World) (fl : Flags) :
  (1 < List.length (args fl) ->
   run W fl = ({| trace := [EvUsage]; project := "go" |}, Exited 1)) /\
  (forall id config res token,
     args fl = [id] -> create fl = false -> search fl = EmptyString ->
     settings_json W = SettingsMap config ->
     config_lookup config "email" <> None ->
     config_lookup config "password" <> None ->
     RoundTrip W 0 = Some res -> StatusCode res = 200%Z ->
     nth_error (strings.Split (Body res) LF) 2 = Some token ->
     NewRequest_ok W
       (URL (issue_request
               (match config_lookup config "project" with
                | Some v => v
                | None => "go"
                end) token id)) = true ->
     firstn 2 (trace (fst (run W fl)))
     = [ EvPostForm login_url (login_values config);
         EvDo (issue_request
                 (match config_lookup config "project" with
                  | Some v => v
                  | None => "go"
                  end) token id) ]).
Proof.
  split.
  - intro H. unfold run, main. apply Nat.ltb_lt in H. now rewrite H.
  - intros id config res token Ha Hc Hs HS HE HP HR HC HT HN.
    unfold run, main. rewrite Ha, Hc, Hs. cbn [List.length Nat.ltb Nat.leb String.length Nat.eqb].
    rewrite (bind_Returned _ _ _ _ _ (getConfig_ok W config HS HE HP)).
    set (st0 := {| trace := []; project := _ |}).
    rewrite (bind_Returned _ _ _ _ _
               (authLogin_ok W config st0 res token HR HC HT)).
    cbn [for_range].
    set (st1 := posted _ config).
    assert (X : exists evs,
               trace (fst (bind (bind (showIssue W token id)
                                   (fun _ => if comment fl
                                             then showComments W token id
                                             else ret tt))
                              (fun _ => ret tt) st1))
               = ((trace st1 ++ [EvDo (issue_request (project st1) token id)])
                    ++ evs)%list).
    { apply prefix_bind_l; [|intro; apply extends_ret].
      apply prefix_bind_l.
      - apply showIssue_request. exact HN.
      - intro. destruct (comment fl);
          [apply extends_showComments | apply extends_ret]. }
    destruct X as [evs X]. rewrite X. reflexivity.
Qed.

Lemma main_positional_witness :
  run world_ok (flags_of ["1"; "2"])
  = ({| trace := [EvUsage]; project := "go" |}, Exited 1) /\
  firstn 2 (trace (fst (run world_ok (flags_of ["7"]))))
  = [ EvPostForm login_url (login_values sample_config);
      EvDo (issue_request "go" "Auth=tok" "7") ].
Proof.
  split.
  - apply (proj1 (main_positional world_ok (flags_of ["1"; "2"]))).
    simpl. lia.
  - refine (proj2 (main_positional world_ok (flags_of ["7"]))
              "7" sample_config login_ok "Auth=tok"
              eq_refl eq_refl eq_refl eq_refl _ _ eq_refl eq_refl eq_refl eq_refl);
      discriminate.
Defined.

(** C2, as it is worded, fails on every command line with two positional
    arguments: in a world where every request would succeed, the run is
    the usage text and exit status 1, and no issue is requested. *)
Lemma main_two_arguments_rejected :
  run world_ok (flags_of ["1"; "2"])
  = ({| trace := [EvUsage]; project := "go" |}, Exited 1) /\
  existsb is_feed_request (trace (fst (run world_ok (flags_of ["1"; "2"])))) = false /\
  existsb is_feed_request (trace (fst (run world_ok (flags_of ["1"])))) = true.
Proof. repeat split. Qed.

(** * Further properties of the code *)

(** ** Escaping *)

Lemma is_special_cases (c : ascii) :
  is_special c = true ->
  c = "<"%char \/ c = ">"%char \/ c = dquote \/ c = "'"%char \/ c = "&"%char.
Proof.
  unfold is_special.
  destruct (Ascii.eqb_spec c "<"); [auto|].
  destruct (Ascii.eqb_spec c ">"); [auto|].
  destruct (Ascii.eqb_spec c dquote); [auto|].
  destruct (Ascii.eqb_spec c "'"); [auto|].
  destruct (Ascii.eqb_spec c "&"); [auto 6|].
  discriminate.
Qed.

Lemma escape_spec_injective (a b : string) :
  escape_spec a = escape_spec b -> a = b.
Proof.
  revert b; induction a as [|c a IH]; intros [|d b] H.
  - reflexivity.
  - exfalso. apply (f_equal String.length) in H. simpl in H.
    rewrite length_append in H. pose proof (entity_of_length d). lia.
  - exfalso. apply (f_equal String.length) in H. simpl in H.
    rewrite length_append in H. pose proof (entity_of_length c). lia.
  - cbn [escape_spec] in H.
    destruct (is_special c) eqn:Sc; destruct (is_special d) eqn:Sd.
    + destruct (is_special_cases c Sc) as [->|[->|[->|[->| ->]]]];
        destruct (is_special_cases d Sd) as [->|[->|[->|[->| ->]]]];
        cbn in H; try discriminate H;
        injection H as H; f_equal; exact (IH _ H).
    + rewrite (entity_of_plain d Sd) in H.
      destruct (is_special_cases c Sc) as [->|[->|[->|[->| ->]]]];
        cbn in H; injection H as H _; subst d; discriminate Sd.
    + rewrite (entity_of_plain c Sc) in H.
      destruct (is_special_cases d Sd) as [->|[->|[->|[->| ->]]]];
        cbn in H; injection H as H _; subst c; discriminate Sc.
    + rewrite (entity_of_plain c Sc), (entity_of_plain d Sd) in H.
      cbn in H. injection H as -> H. f_equal. exact (IH _ H).
Qed.

(** X1.  [xmlEscape] loses nothing: two strings with the same escaped text
    are the same string. *)
Theorem xmlEscape_injective (a b : string) :
  xmlEscape a = xmlEscape b -> a = b.
Proof. rewrite !xmlEscape_spec. apply escape_spec_injective. Qed.

Lemma xmlEscape_injective_witness :
  "a<" ++ "b&c" = "a" ++ "<b&" ++ "c".
Proof. apply (xmlEscape_injective ("a<" ++ "b&c") ("a" ++ "<b&" ++ "c")). reflexivity. Defined.

(** X2.  The strings that [xmlEscape] returns as they are are exactly
    those without any of the five characters; every other string grows,
    and by at most five bytes for each byte. *)
Theorem xmlEscape_fixed_points (s : string) :
  (xmlEscape s = s <-> has_special s = false) /\
  String.length s <= String.length (xmlEscape s) <= 6 * String.length s.
Proof.
  rewrite xmlEscape_spec. split; [split|split].
  - intro E. destruct (has_special s) eqn:H; [|reflexivity].
    pose proof (escape_spec_longer s H) as L. rewrite E in L. lia.
  - apply escape_spec_plain.
  - apply escape_spec_length.
  - induction s as [|c s IH]; simpl; [lia|].
    rewrite length_append.
    assert (String.length (entity_of c) <= 6).
    { unfold entity_of. repeat (destruct (Ascii.eqb c _); simpl; try lia). }
    lia.
Qed.

Lemma entity_of_clean (x c : ascii) :
  is_special c = true -> c <> "&"%char ->
  strings.ContainsByte (entity_of x) c = false.
Proof.
  intros Sc Nc.
  destruct (is_special x) eqn:Sx.
  - destruct (is_special_cases c Sc) as [->|[->|[->|[->| ->]]]];
      try contradiction;
      destruct (is_special_cases x Sx) as [->|[->|[->|[->| ->]]]];
      reflexivity.
  - rewrite (entity_of_plain x Sx). simpl. rewrite orb_false_r.
    apply Ascii.eqb_neq. intros ->. congruence.
Qed.

(** X3.  An escaped text holds none of the characters [<], [>], the double
    quote and the apostrophe, whatever the input. *)
Theorem xmlEscape_clean (s : string) (c : ascii) :
  is_special c = true -> c <> "&"%char ->
  strings.ContainsByte (xmlEscape s) c = false.
Proof.
  intros Sc Nc. rewrite xmlEscape_spec.
  induction s as [|x s IH]; simpl; [reflexivity|].
  now rewrite ContainsByte_app, IH, (entity_of_clean x c Sc Nc).
Qed.

Lemma xmlEscape_clean_witness :
  strings.ContainsByte (xmlEscape ("<a href='x'>" ++ String dquote "")) dquote = false.
Proof.
  apply (xmlEscape_clean _ dquote); [reflexivity | discriminate].
Defined.

(** X4.  The document sent for a draft determines the draft: two drafts
    with the same document have the same title, body and author. *)
Theorem createIssue_document_injective (title body from title' body' from' : string) :
  createIssue_document title body from = createIssue_document title' body' from' ->
  title = title' /\ body = body' /\ from = from'.
Proof.
  intro H. apply (f_equal xml_tokens) in H.
  rewrite !createIssue_document_scan in H. unfold document_tokens in H.
  injection H as Ht Hb Hf _. rewrite !xmlEscape_spec in *.
  repeat split; apply escape_spec_injective; assumption.
Qed.

Lemma createIssue_document_injective_witness :
  "a<b" = "a<b" /\ "x" = "x" /\ "me" = "me".
Proof. apply (createIssue_document_injective "a<b" "x" "me"). reflexivity. Defined.

(** ** The flattener *)

Lemma first_error_clean (l : list (nat * Node)) :
  first_error l = None ->
  forallb (fun dn => negb (rejected (snd dn))) l = true.
Proof.
  induction l as [|x l IH]; simpl; [reflexivity|].
  destruct (rejected (snd x)); [discriminate | exact IH].
Qed.

(** X5.  [dump] returns no error exactly when every node below the root is
    an element or a text node. *)
Theorem dump_no_error_iff (verbs : string -> string) (root : Node) :
  snd (dump verbs (Some root)) = nil_error <-> only_element_text root = true.
Proof.
  unfold only_element_text. rewrite dump_spec.
  destruct (first_error (walks (Child root) 0)) as [ty|] eqn:E; cbn [snd].
  - split; intro H.
    + exfalso. exact (first_error_rejected _ _ E H).
    + rewrite (first_error_none _ H) in E. discriminate.
  - split; intro; [now apply first_error_clean | reflexivity].
Qed.

(** X6.  What [dumpLevel] writes and the error it returns do not depend on
    what the writer holds: the call appends to the writer what it writes
    to an empty one. *)
Theorem dumpLevel_appends (verbs : string -> string) (w : string) (n : Node)
        (level : nat) :
  dumpLevel verbs w n level
  = (w ++ fst (dumpLevel verbs EmptyString n level),
     snd (dumpLevel verbs EmptyString n level)).
Proof. rewrite !dumpLevel_spec. reflexivity. Qed.

(** ** The draft *)

Lemma Split_no_sep (s : string) (sep : ascii) :
  Forall (fun l => strings.ContainsByte l sep = false) (strings.Split s sep).
Proof.
  induction s as [|c s IH]; simpl.
  - constructor; [reflexivity | constructor].
  - destruct (Ascii.eqb c sep) eqn:E.
    + constructor; [reflexivity | exact IH].
    + destruct (strings.Split s sep) as [|l ls]; inversion IH; subst;
        constructor; simpl; try rewrite E; auto.
Qed.

(** The lines of an accepted draft, and the draft of such lines. *)
Lemma createIssue_draft_lines (windows : bool) (text from title body : string) :
  createIssue_draft windows text = Ok (from, title, body) ->
  exists separator line3 rest,
    strings.Split (if windows then strings.Replace_crlf_lf text else text) LF
    = ("from: " ++ from) :: ("title: " ++ title) :: separator :: line3 :: rest /\
    body = strings.Join (line3 :: rest) nl.
Proof.
  unfold createIssue_draft.
  set (lines := strings.Split _ LF). clearbody lines.
  destruct lines as [|l0 [|l1 [|l2 [|l3 rest]]]];
    try (intro H; discriminate H).
  replace (List.length (l0 :: l1 :: l2 :: l3 :: rest) <? 4)%nat with false
    by (symmetry; apply Nat.ltb_ge; simpl; lia).
  cbn [nth skipn].
  destruct (String.length l0 <? 7)%nat eqn:L0;
    [cbn [orb]; intro H; discriminate H|].
  destruct (slice_to l0 6 =? "from: ")%string eqn:P0;
    [|cbn [orb negb]; intro H; discriminate H].
  cbn [orb negb].
  destruct (String.length l1 <? 8)%nat eqn:L1;
    [cbn [orb]; intro H; discriminate H|].
  destruct (slice_to l1 7 =? "title: ")%string eqn:P1;
    [|cbn [orb negb]; intro H; discriminate H].
  cbn [orb negb]. intro H. injection H as <- <- <-.
  apply Nat.ltb_ge in L0, L1.
  destruct (createIssue_draft_header "from: " l0) as [E0 _];
    [simpl; lia | exact P0 |].
  destruct (createIssue_draft_header "title: " l1) as [E1 _];
    [simpl; lia | exact P1 |].
  exists l2, l3, rest. cbn [String.length] in *.
  rewrite <- E0, <- E1. split; reflexivity.
Qed.

Lemma createIssue_draft_of_lines (text from title separator line3 : string)
      (rest : list string) :
  strings.Split text LF
  = ("from: " ++ from) :: ("title: " ++ title) :: separator :: line3 :: rest ->
  from <> EmptyString -> title <> EmptyString ->
  createIssue_draft false text = Ok (from, title, strings.Join (line3 :: rest) nl).
Proof.
  intros E N0 N1. unfold createIssue_draft. rewrite E.
  replace (List.length (("from: " ++ from) :: ("title: " ++ title)
                          :: separator :: line3 :: rest) <? 4)%nat with false
    by (symmetry; apply Nat.ltb_ge; simpl; lia).
  cbn [nth skipn].
  assert (F : forall p s, s <> EmptyString ->
            (String.length (p ++ s) <? S (String.length p))%nat = false).
  { intros p s N. apply Nat.ltb_ge. rewrite length_append.
    destruct s; [contradiction | simpl; lia]. }
  pose proof (F "from: " from N0) as F0.
  pose proof (F "title: " title N1) as F1.
  cbn [String.length] in F0, F1. rewrite F0, F1.
  change 6 with (String.length "from: ").
  change 7 with (String.length "title: ").
  rewrite !slice_to_app, !slice_from_app, !String.eqb_refl.
  reflexivity.
Qed.

(** X7.  A text made of an author line, a title line, a separator line and
    a body is read back as that author, title and body, whenever the
    author and the title are not empty and the three lines hold no
    newline; the body may hold any bytes. *)
Theorem createIssue_draft_of_text (from title separator body : string) :
  from <> EmptyString -> title <> EmptyString ->
  no_newline from = true -> no_newline title = true ->
  no_newline separator = true ->
  createIssue_draft false (draft_text from title separator body)
  = Ok (from, title, body).
Proof.
  unfold no_newline. intros N0 N1 H0 H1 H2.
  apply negb_true_iff in H0, H1, H2.
  destruct (Split_cons body LF) as [l3 [rest E]].
  assert (S : strings.Split (draft_text from title separator body) LF
              = ("from: " ++ from) :: ("title: " ++ title) :: separator
                  :: l3 :: rest).
  { unfold draft_text.
    rewrite <- (append_assoc "from: " from), Split_line
      by (rewrite ContainsByte_app, H0; reflexivity).
    rewrite <- (append_assoc "title: " title), Split_line
      by (rewrite ContainsByte_app, H1; reflexivity).
    rewrite Split_line by exact H2. now rewrite E. }
  rewrite (createIssue_draft_of_lines _ _ _ _ _ _ S N0 N1).
  now rewrite <- E, Join_Split.
Qed.

Lemma createIssue_draft_of_text_witness :
  createIssue_draft false
    (draft_text "Alice" "Bug X" "----" ("It crashes." ++ nl ++ nl ++ "from: me"))
  = Ok ("Alice", "Bug X", "It crashes." ++ nl ++ nl ++ "from: me").
Proof.
  apply (createIssue_draft_of_text "Alice" "Bug X" "----");
    try discriminate; reflexivity.
Defined.

(** X8.  An accepted draft is the text of its author, its title, the line
    that was dropped and its body: nothing else of the file is lost, and
    the author and the title hold no newline. *)
Theorem createIssue_draft_text (text from title body : string) :
  createIssue_draft false text = Ok (from, title, body) ->
  exists separator,
    text = draft_text from title separator body /\
    no_newline separator = true /\
    no_newline from = true /\ no_newline title = true.
Proof.
  intro H. destruct (createIssue_draft_lines _ _ _ _ _ H) as [l2 [l3 [rest [S ->]]]].
  exists l2. pose proof (Split_no_sep text LF) as F. rewrite S in F.
  inversion F as [|? ? F0 F']; subst. inversion F' as [|? ? F1 F'']; subst.
  inversion F'' as [|? ? F2 _]; subst.
  simpl in F0, F1.
  unfold no_newline. rewrite F0, F1, F2. repeat split.
  rewrite <- (Join_Split text), S. unfold strings.Join, draft_text.
  rewrite !concat_cons2, !append_assoc. reflexivity.
Qed.

Lemma createIssue_draft_text_witness :
  exists separator,
    sample_draft = draft_text "Alice" "Bug X" separator ("It crashes." ++ nl ++ "Every time.") /\
    no_newline separator = true /\
    no_newline "Alice" = true /\ no_newline "Bug X" = true.
Proof. apply (createIssue_draft_text sample_draft). reflexivity. Defined.

Lemma Replace_crlf_lf_cons (c : ascii) (s : string) :
  (forall s', s <> String LF s') ->
  strings.Replace_crlf_lf (String c s) = String c (strings.Replace_crlf_lf s).
Proof.
  intro H. cbn [strings.Replace_crlf_lf]. destruct s as [|d s']; [reflexivity|].
  destruct (Ascii.eqb_spec d LF) as [->|N].
  - exfalso. exact (H s' eq_refl).
  - now rewrite andb_false_r.
Qed.

Lemma Replace_lf_crlf_head (s s' : string) : Replace_lf_crlf s <> String LF s'.
Proof.
  destruct s as [|c s]; simpl; [discriminate|].
  destruct (Ascii.eqb_spec c LF) as [->|N]; [discriminate|].
  intro H. injection H as H _. contradiction.
Qed.

Lemma Replace_crlf_lf_inverse (s : string) :
  strings.Replace_crlf_lf (Replace_lf_crlf s) = s.
Proof.
  induction s as [|c s IH]; [reflexivity|].
  cbn [Replace_lf_crlf].
  destruct (Ascii.eqb_spec c LF) as [->|N].
  - cbn [strings.Replace_crlf_lf]. cbn [Ascii.eqb CR LF andb Bool.eqb].
    now rewrite IH.
  - rewrite Replace_crlf_lf_cons by (intro; apply Replace_lf_crlf_head).
    now rewrite IH.
Qed.

(** X9.  On Windows the newlines are written as CR LF and read back as LF:
    the template read back is the template, and a text with its newlines
    written as CR LF is parsed on Windows as the text is elsewhere. *)
Theorem createIssue_draft_windows (text : string) :
  strings.Replace_crlf_lf (createIssue_contents true) = createIssue_contents false /\
  createIssue_draft true (Replace_lf_crlf text) = createIssue_draft false text.
Proof.
  split.
  - apply Replace_crlf_lf_inverse.
  - unfold createIssue_draft. now rewrite Replace_crlf_lf_inverse.
Qed.

(** ** The reading operations *)

Lemma add_events_nil (st : State) : add_events st [] = st.
Proof. destruct st. unfold add_events. simpl. now rewrite app_nil_r. Qed.

Lemma add_events_add (st : State) (a b : list Event) :
  add_events (add_events st a) b = add_events st (a ++ b).
Proof. unfold add_events. simpl. now rewrite app_assoc. Qed.

Lemma log_Fatal_run {A} (msg : string) (operand : option string) (st : State) :
  @log_Fatal A msg operand st = (add_events st [EvFatal msg operand], Exited 1).
Proof. reflexivity. Qed.

Lemma emit_run (e : Event) (st : State) :
  emit e st = (add_events st [e], Returned tt).
Proof. reflexivity. Qed.

Section ReadingFacts.

Variable W : World.

(** [fetch] by the answer to its request. *)
Lemma fetch_run (auth url m1 m2 m3 m4 : string) (st : State) :
  NewRequest_ok W url = true ->
  fetch W auth url m1 m2 m3 m4 st =
  match RoundTrip W (requests_sent st) with
  | None => (add_events st [EvDo (get_request auth url); EvFatal m2 None], Exited 1)
  | Some res =>
      if negb (StatusCode res =? 200)%Z
      then (add_events st [EvDo (get_request auth url);
                           EvFatal m3 (Some (Status res))], Exited 1)
      else if ReadAllErr res
      then (add_events st [EvDo (get_request auth url); EvFatal m4 None], Exited 1)
      else (add_events st [EvDo (get_request auth url)], Returned (Body res))
  end.
Proof.
  intro N. unfold fetch, http_NewRequest, http_Do, exchange, bind. rewrite N.
  cbn [fst snd Header_Set Method URL Header ContentLength ReqBody app].
  fold (requests_sent st).
  destruct (RoundTrip W (requests_sent st)) as [res|];
    [destruct (negb (StatusCode res =? 200)%Z);
       [|destruct (ReadAllErr res)]|];
    unfold log_Fatal, emit, os_Exit, bind, ret, add_events;
    cbn [trace project fst snd]; rewrite <- ?app_assoc; reflexivity.
Qed.

Lemma fetch_ok (auth url m1 m2 m3 m4 : string) (st : State) (res : Response) :
  NewRequest_ok W url = true ->
  RoundTrip W (requests_sent st) = Some res ->
  StatusCode res = 200%Z -> ReadAllErr res = false ->
  fetch W auth url m1 m2 m3 m4 st
  = (add_events st [EvDo (get_request auth url)], Returned (Body res)).
Proof. intros N R S E. rewrite (fetch_run _ _ _ _ _ _ _ N), R, S, E. reflexivity. Qed.

Lemma fetch_status (auth url m1 m2 m3 m4 : string) (st : State) (res : Response) :
  NewRequest_ok W url = true ->
  RoundTrip W (requests_sent st) = Some res ->
  StatusCode res <> 200%Z ->
  fetch W auth url m1 m2 m3 m4 st
  = (add_events st [EvDo (get_request auth url); EvFatal m3 (Some (Status res))],
     Exited 1).
Proof.
  intros N R S. rewrite (fetch_run _ _ _ _ _ _ _ N), R.
  apply Z.eqb_neq in S. now rewrite S.
Qed.

Lemma for_range_emit {A} (f : A -> Event) (l : list A) (st : State) :
  for_range l (fun x => emit (f x)) st = (add_events st (map f l), Returned tt).
Proof.
  revert st; induction l as [|x l IH]; intro st; cbn [for_range map].
  - unfold ret. now rewrite add_events_nil.
  - rewrite (bind_Returned _ _ _ _ _ (emit_run (f x) st)), IH, add_events_add.
    reflexivity.
Qed.

Lemma render_run (content : string) (st : State) :
  render W content st =
  match rendered W content with
  | Some text => (st, Returned text)
  | None => (add_events st [EvFatal "failed to parse xml:" None], Exited 1)
  end.
Proof.
  unfold render, rendered. destruct (html_Parse W content) as [doc|]; [|reflexivity].
  destruct (dump (fmt_verbs W) (Some doc)) as [text [e|]]; reflexivity.
Qed.

Lemma comments_loop (entries : list Entry) (st : State) :
  for_range entries
    (fun entry =>
       text <- render W (Content entry) ;;
       emit (EvPrintln (fmt.Sprintln3 (Title entry) nl text))) st
  = (add_events st (fst (comment_events W entries)),
     if snd (comment_events W entries) then Returned tt else Exited 1).
Proof.
  revert st; induction entries as [|entry entries IH]; intro st;
    cbn [for_range comment_events].
  - unfold ret. cbn [fst snd]. now rewrite add_events_nil.
  - unfold bind at 1. unfold bind at 1. rewrite render_run.
    destruct (rendered W (Content entry)) as [text|]; [|reflexivity].
    rewrite emit_run, IH.
    destruct (comment_events W entries) as [evs ok]. cbn [fst snd].
    now rewrite add_events_add.
Qed.

(** X10.  [searchIssues]: when the request is answered by status 200 and
    the body is decoded to a feed, the operation sends one GET request for
    the escaped word, with the token, and prints one line, the id, a colon
    and the title, for each entry in the order of the feed. *)
Theorem searchIssues_prints (auth word : string) (st : State) (res : Response)
        (feed : Feed) :
  NewRequest_ok W (search_url W (project st) word) = true ->
  RoundTrip W (requests_sent st) = Some res ->
  StatusCode res = 200%Z -> ReadAllErr res = false ->
  xml_Unmarshal_Feed W (Body res) = Some feed ->
  searchIssues W auth word st
  = (add_events st (EvDo (get_request auth (search_url W (project st) word))
                      :: feed_lines (Feed_Entry feed)),
     Returned tt).
Proof.
  intros N R S E F. unfold searchIssues.
  rewrite (bind_Returned get_project _ st st (project st) eq_refl).
  rewrite (bind_Returned _ _ _ _ _ (fetch_ok _ _ _ _ _ _ st res N R S E)).
  rewrite F. unfold feed_lines.
  rewrite for_range_emit, add_events_add. reflexivity.
Qed.

(** X11.  [showIssues]: under the same conditions, one GET request for the
    feed of the project and one line for each entry, in the order of the
    feed. *)
Theorem showIssues_prints (auth : string) (st : State) (res : Response)
        (feed : Feed) :
  NewRequest_ok W (list_url (project st)) = true ->
  RoundTrip W (requests_sent st) = Some res ->
  StatusCode res = 200%Z -> ReadAllErr res = false ->
  xml_Unmarshal_Feed W (Body res) = Some feed ->
  showIssues W auth st
  = (add_events st (EvDo (get_request auth (list_url (project st)))
                      :: feed_lines (Feed_Entry feed)),
     Returned tt).
Proof.
  intros N R S E F. unfold showIssues.
  rewrite (bind_Returned get_project _ st st (project st) eq_refl).
  rewrite (bind_Returned _ _ _ _ _ (fetch_ok _ _ _ _ _ _ st res N R S E)).
  rewrite F. unfold feed_lines.
  rewrite for_range_emit, add_events_add. reflexivity.
Qed.

(** X12.  [showComments] prints the comments in the order of the feed up
    to the first one whose content does not parse or flatten: what was
    printed stays, the fatal message follows, and the process exits with
    status 1; when every comment renders, the operation returns. *)
Theorem showComments_prints (auth id : string) (st : State) (res : Response)
        (feed : Feed) :
  NewRequest_ok W (comments_url (project st) id) = true ->
  RoundTrip W (requests_sent st) = Some res ->
  StatusCode res = 200%Z -> ReadAllErr res = false ->
  xml_Unmarshal_Feed W (Body res) = Some feed ->
  showComments W auth id st
  = (add_events st (EvDo (get_request auth (comments_url (project st) id))
                      :: fst (comment_events W (Feed_Entry feed))),
     if snd (comment_events W (Feed_Entry feed)) then Returned tt else Exited 1).
Proof.
  intros N R S E F. unfold showComments.
  rewrite (bind_Returned get_project _ st st (project st) eq_refl).
  rewrite (bind_Returned _ _ _ _ _ (fetch_ok _ _ _ _ _ _ st res N R S E)).
  rewrite F, comments_loop, add_events_add. reflexivity.
Qed.

(** X13.  A response with another status than 200 ends each reading
    operation after its one request: the status is logged, nothing is
    printed, and the process exits with status 1. *)
Theorem reading_status (auth id word : string) (st : State) (res : Response) :
  RoundTrip W (requests_sent st) = Some res ->
  StatusCode res <> 200%Z ->
  (NewRequest_ok W (issue_url (project st) id) = true ->
   showIssue W auth id st
   = (add_events st [EvDo (get_request auth (issue_url (project st) id));
                     EvFatal "failed to authenticate:" (Some (Status res))],
      Exited 1)) /\
  (NewRequest_ok W (search_url W (project st) word) = true ->
   searchIssues W auth word st
   = (add_events st [EvDo (get_request auth (search_url W (project st) word));
                     EvFatal "failed to get issues:" (Some (Status res))],
      Exited 1)) /\
  (NewRequest_ok W (list_url (project st)) = true ->
   showIssues W auth st
   = (add_events st [EvDo (get_request auth (list_url (project st)));
                     EvFatal "failed to get issues:" (Some (Status res))],
      Exited 1)) /\
  (NewRequest_ok W (comments_url (project st) id) = true ->
   showComments W auth id st
   = (add_events st [EvDo (get_request auth (comments_url (project st) id));
                     EvFatal "failed to authenticate:" (Some (Status res))],
      Exited 1)).
Proof.
  intros R S.
  repeat split; intro N;
    unfold showIssue, searchIssues, showIssues, showComments;
    rewrite (bind_Returned get_project _ st st (project st) eq_refl);
    exact (bind_Exited _ _ _ _ _ (fetch_status _ _ _ _ _ _ st res N R S)).
Qed.

End ReadingFacts.

Lemma searchIssues_prints_witness :
  searchIssues world_ok "Auth=tok" "crash" logged_in
  = (add_events logged_in
       [EvDo (get_request "Auth=tok" (search_url world_ok "go" "crash"));
        EvPrintln (fmt.Sprintln1 "1: Bug X")],
     Returned tt).
Proof.
  exact (searchIssues_prints world_ok "Auth=tok" "crash" logged_in feed_ok
           {| Feed_Entry := [sample_entry] |}
           eq_refl eq_refl eq_refl eq_refl eq_refl).
Defined.

Lemma showIssues_prints_witness :
  showIssues world_comments "Auth=tok" logged_in
  = (add_events logged_in
       [EvDo (get_request "Auth=tok" (list_url "go"));
        EvPrintln (fmt.Sprintln1 "1: Bug X");
        EvPrintln (fmt.Sprintln1 "2: Bug Y");
        EvPrintln (fmt.Sprintln1 "1: Bug X")],
     Returned tt).
Proof.
  exact (showIssues_prints world_comments "Auth=tok" logged_in feed_ok
           {| Feed_Entry := [sample_entry; entry_comment; sample_entry] |}
           eq_refl eq_refl eq_refl eq_refl eq_refl).
Defined.

Lemma showComments_prints_witness :
  showComments world_comments "Auth=tok" "7" logged_in
  = (add_events logged_in
       [EvDo (get_request "Auth=tok" (comments_url "go" "7"));
        EvPrintln (fmt.Sprintln3 "Bug X" nl "              hi");
        EvFatal "failed to parse xml:" None],
     Exited 1).
Proof.
  exact (showComments_prints world_comments "Auth=tok" "7" logged_in feed_ok
           {| Feed_Entry := [sample_entry; entry_comment; sample_entry] |}
           eq_refl eq_refl eq_refl eq_refl eq_refl).
Defined.

Lemma reading_status_witness :
  showIssues world_500 "Auth=tok" logged_in
  = (add_events logged_in
       [EvDo (get_request "Auth=tok" (list_url "go"));
        EvFatal "failed to get issues:" (Some "500 Internal Server Error")],
     Exited 1).
Proof.
  refine (proj1 (proj2 (proj2 (reading_status world_500 "Auth=tok" "7" "crash"
            logged_in server_error eq_refl _))) eq_refl).
  discriminate.
Defined.

(** ** Creating an issue *)

Section CreateFacts.

Variable W : World.

(** X14.  [createIssue] sends the document of an accepted draft in one
    POST request with the token, the Atom content type and the length of
    the document, and prints the status of the answer whatever it is: the
    status code is not tested, so a refusal by the server does not end
    the process. *)
Theorem createIssue_posts (auth text from title body : string) (st : State)
        (res : Response) :
  editor_ok W = true ->
  edited_file W = Some text ->
  createIssue_draft (GOOS_windows W) text = Ok (from, title, body) ->
  NewRequest_ok W (list_url (project st)) = true ->
  RoundTrip W (requests_sent st) = Some res ->
  createIssue W auth st
  = (add_events st
       [EvDo (create_request (project st) auth
                (createIssue_document title body from));
        EvPrintln (fmt.Sprintln1 (Status res))],
     Returned tt).
Proof.
  intros He Hf Hd Hn Hr. unfold createIssue. rewrite He, Hf, Hd. cbn [negb].
  rewrite (bind_Returned get_project _ st st (project st) eq_refl).
  unfold http_NewRequest. unfold list_url in Hn. rewrite Hn.
  unfold http_Do, exchange, bind. fold (requests_sent st). rewrite Hr.
  unfold emit, add_events, create_request.
  cbn [trace project fst snd Header_Set set_ContentLength Method URL Header
       ContentLength ReqBody app].
  rewrite <- app_assoc. reflexivity.
Qed.

(** X15.  When the editor fails, the file cannot be read back or the draft
    is rejected, [createIssue] sends nothing: it logs one fatal message
    and the process exits with status 1. *)
Theorem createIssue_rejected (auth : string) (st : State) :
  editor_ok W = false \/ edited_file W = None \/
  (exists text msg, edited_file W = Some text /\
                    createIssue_draft (GOOS_windows W) text = Fatal msg) ->
  exists msg,
    createIssue W auth st = (add_events st [EvFatal msg None], Exited 1).
Proof.
  unfold createIssue. intros [He|[Hf|[text [msg [Hf Hd]]]]].
  - rewrite He. eexists. reflexivity.
  - destruct (editor_ok W); rewrite ?Hf; eexists; reflexivity.
  - destruct (editor_ok W); [|eexists; reflexivity].
    rewrite Hf, Hd. eexists. reflexivity.
Qed.

End CreateFacts.

Lemma createIssue_posts_witness :
  createIssue world_500 "Auth=tok" logged_in
  = (add_events logged_in
       [EvDo (create_request "go" "Auth=tok"
                (createIssue_document "Bug X" ("It crashes." ++ nl ++ "Every time.")
                   "Alice"));
        EvPrintln (fmt.Sprintln1 "500 Internal Server Error")],
     Returned tt).
Proof.
  exact (createIssue_posts world_500 "Auth=tok" sample_draft "Alice" "Bug X"
           ("It crashes." ++ nl ++ "Every time.") logged_in server_error
           eq_refl eq_refl eq_refl eq_refl eq_refl).
Defined.

Lemma createIssue_rejected_witness :
  exists msg,
    createIssue world_ok "Auth=tok" logged_in
    = (add_events logged_in [EvFatal msg None], Exited 1).
Proof.
  apply (createIssue_rejected world_ok "Auth=tok" logged_in).
  right. right. exists contents, "failed to create issue". split; reflexivity.
Defined.

(** ** The whole run *)

(** X16.  Without both credentials in the settings (the file unreadable,
    malformed, or without the email or the password key), a run that
    passes the test of the arguments logs one fatal message and exits with
    status 1: no login is tried, and the project is still the default. *)
Theorem run_without_credentials (W : World) (fl : Flags) :
  List.length (args fl) <= 1 ->
  (forall config, settings_json W = SettingsMap config ->
     config_lookup config "email" = None \/
     config_lookup config "password" = None) ->
  exists msg,
    run W fl = ({| trace := [EvFatal msg None]; project := "go" |}, Exited 1).
Proof.
  intros La H. unfold run, main.
  replace (1 <? List.length (args fl))%nat with false
    by (symmetry; apply Nat.ltb_ge; exact La).
  assert (G : exists msg,
             getConfig W start
             = ({| trace := [EvFatal msg None]; project := "go" |}, Exited 1)).
  { unfold getConfig.
    destruct (settings_json W) as [| |config] eqn:S;
      [eexists; reflexivity | eexists; reflexivity |].
    destruct (H config eq_refl) as [E|P].
    - rewrite E. eexists. reflexivity.
    - destruct (config_lookup config "email"); rewrite ?P; eexists; reflexivity. }
  destruct G as [msg G]. exists msg. exact (bind_Exited _ _ _ _ _ G).
Qed.

Lemma run_without_credentials_witness :
  exists msg,
    run world_no_password (flags_of ["7"])
    = ({| trace := [EvFatal msg None]; project := "go" |}, Exited 1).
Proof.
  apply (run_without_credentials world_no_password (flags_of ["7"])).
  - simpl. lia.
  - intros config E. injection E as <-. right. reflexivity.
Defined.

(** X17.  The token that [authLogin] returns holds no newline. *)
Theorem authLogin_token_line (W : World) (config : list (string * string))
        (st st' : State) (auth : string) :
  authLogin W config st = (st', Returned auth) ->
  strings.ContainsByte auth LF = false.
Proof.
  unfold authLogin, http_PostForm, exchange, bind. cbn [fst snd].
  destruct (RoundTrip W _) as [res|]; [|discriminate].
  destruct (negb (StatusCode res =? 200)%Z); [discriminate|].
  destruct (nth_error (strings.Split (Body res) LF) 2) as [line|] eqn:N;
    [|discriminate].
  intro H. injection H as _ <-.
  apply nth_error_In in N.
  pose proof (Split_no_sep (Body res) LF) as F.
  rewrite Forall_forall in F. exact (F _ N).
Qed.

Lemma authLogin_token_line_witness :
  strings.ContainsByte "Auth=tok" LF = false.
Proof.
  exact (authLogin_token_line world_ok sample_config start
           (posted start sample_config) "Auth=tok" eq_refl).
Defined.

(** ** What every event after the login satisfies *)

Lemma adds_ret (P : Event -> Prop) {A} (a : A) : adds_only P (ret a).
Proof. intro st. exists []. simpl. now rewrite app_nil_r. Qed.

Lemma adds_os_Exit (P : Event -> Prop) {A} (code : Z) :
  adds_only P (@os_Exit A code).
Proof. intro st. exists []. simpl. now rewrite app_nil_r. Qed.

Lemma adds_get_project (P : Event -> Prop) : adds_only P get_project.
Proof. intro st. exists []. simpl. now rewrite app_nil_r. Qed.

Lemma adds_emit (P : Event -> Prop) (e : Event) : P e -> adds_only P (emit e).
Proof. intros H st. exists [e]. split; [reflexivity | now constructor]. Qed.

Lemma adds_exchange (P : Event -> Prop) (W : World) (e : Event) :
  P e -> adds_only P (exchange W e).
Proof. intros H st. exists [e]. split; [reflexivity | now constructor]. Qed.

Lemma adds_bind (P : Event -> Prop) {A B} (p : Proc A) (k : A -> Proc B) :
  adds_only P p -> (forall a, adds_only P (k a)) -> adds_only P (bind p k).
Proof.
  intros Hp Hk st. unfold bind.
  destruct (Hp st) as [evs [E F]].
  destruct (p st) as [st' [a|code|msg]]; cbn [fst] in E.
  - destruct (Hk a st') as [evs' [E' F']]. exists (evs ++ evs')%list.
    split; [now rewrite E', E, app_assoc | now apply Forall_app].
  - exists evs. split; assumption.
  - exists evs. split; assumption.
Qed.

Lemma adds_log_Fatal (P : Event -> Prop) {A} (msg : string)
      (operand : option string) :
  P (EvFatal msg operand) -> adds_only P (@log_Fatal A msg operand).
Proof.
  intro H. apply adds_bind; [now apply adds_emit | intro; apply adds_os_Exit].
Qed.

Lemma adds_for_range (P : Event -> Prop) {A} (l : list A) (f : A -> Proc unit) :
  (forall a, adds_only P (f a)) -> adds_only P (for_range l f).
Proof.
  intro Hf. induction l as [|x l IH]; simpl.
  - apply adds_ret.
  - apply adds_bind; [apply Hf | intro; exact IH].
Qed.

Lemma prefix_append (p s : string) : prefix p (p ++ s) = true.
Proof. apply prefix_correct. apply slice_to_app. Qed.

Ltac adds_step :=
  first
    [ apply adds_ret | apply adds_os_Exit | apply adds_get_project
    | apply adds_log_Fatal; exact I
    | apply adds_emit; exact I
    | apply adds_bind; [|intro]
    | apply adds_for_range; intro
    | match goal with
      | |- adds_only _ (match ?x with _ => _ end) => destruct x
      end ].

Section AfterLogin.

Variable W : World.
Variable auth : string.

Lemma adds_fetch (url m1 m2 m3 m4 : string) :
  prefix "https://code.google.com/feeds/issues/p/" url = true ->
  adds_only (after_login auth) (fetch W auth url m1 m2 m3 m4).
Proof.
  intro H. unfold fetch, http_NewRequest, http_Do.
  destruct (NewRequest_ok W url); [|adds_step].
  apply adds_bind.
  - apply adds_exchange. split; [left; reflexivity | exact H].
  - intro res. repeat adds_step.
Qed.

Lemma adds_render (content : string) :
  adds_only (after_login auth) (render W content).
Proof. unfold render. repeat adds_step. Qed.

Lemma adds_showIssue (id : string) :
  adds_only (after_login auth) (showIssue W auth id).
Proof.
  unfold showIssue.
  repeat first [apply adds_fetch; apply prefix_append | apply adds_render | adds_step].
Qed.

Lemma adds_searchIssues (word : string) :
  adds_only (after_login auth) (searchIssues W auth word).
Proof.
  unfold searchIssues.
  repeat first [apply adds_fetch; apply prefix_append | adds_step].
Qed.

Lemma adds_showIssues : adds_only (after_login auth) (showIssues W auth).
Proof.
  unfold showIssues.
  repeat first [apply adds_fetch; apply prefix_append | adds_step].
Qed.

Lemma adds_showComments (id : string) :
  adds_only (after_login auth) (showComments W auth id).
Proof.
  unfold showComments.
  repeat first [apply adds_fetch; apply prefix_append | apply adds_render | adds_step].
Qed.

Lemma adds_createIssue : adds_only (after_login auth) (createIssue W auth).
Proof.
  unfold createIssue.
  destruct (negb (editor_ok W)); [adds_step|].
  destruct (edited_file W) as [text|]; [|adds_step].
  destruct (createIssue_draft (GOOS_windows W) text) as [[[from title] body]|msg];
    [|adds_step].
  apply adds_bind; [apply adds_get_project|]. intro project.
  unfold http_NewRequest, http_Do.
  destruct (NewRequest_ok W _); [|adds_step].
  apply adds_bind.
  - apply adds_exchange. split; [left; reflexivity | apply prefix_append].
  - intro res. repeat adds_step.
Qed.

Lemma adds_dispatch (fl : Flags) :
  adds_only (after_login auth)
    (if create fl then createIssue W auth
     else if (0 <? String.length (search fl))%nat then searchIssues W auth (search fl)
     else if (List.length (args fl) =? 0)%nat then showIssues W auth
     else
       for_range (args fl)
         (fun id =>
            showIssue W auth id ;;;
            if comment fl then showComments W auth id else ret tt)).
Proof.
  repeat first
    [ apply adds_createIssue | apply adds_searchIssues | apply adds_showIssues
    | apply adds_showIssue | apply adds_showComments | adds_step ].
Qed.

End AfterLogin.

(** The login from a state without events: the token of a 200 response,
    or no return and no request after the post. *)
Lemma authLogin_cases (W : World) (config : list (string * string)) (st : State) :
  trace st = [] ->
  exists st' o,
    authLogin W config st = (st', o) /\
    ((exists auth res, o = Returned auth /\ RoundTrip W 0 = Some res /\
                       StatusCode res = 200%Z /\
                       nth_error (strings.Split (Body res) LF) 2 = Some auth /\
                       st' = posted st config) \/
     ((forall auth, o <> Returned auth) /\
      exists evs, trace st' = EvPostForm login_url (login_values config) :: evs /\
                  forallb (fun e => negb (is_network e)) evs = true)).
Proof.
  intro T. unfold authLogin, http_PostForm, exchange, bind. rewrite T.
  cbn [filter List.length app].
  destruct (RoundTrip W 0) as [res|] eqn:R.
  - destruct (StatusCode res =? 200)%Z eqn:S; cbn [negb].
    + apply Z.eqb_eq in S.
      destruct (nth_error (strings.Split (Body res) LF) 2) as [auth|] eqn:N.
      * eexists _, _. split; [reflexivity|]. left. exists auth, res.
        unfold posted. rewrite T. repeat split; assumption.
      * eexists _, _. split; [reflexivity|]. right.
        split; [discriminate|]. exists []. split; reflexivity.
    + eexists _, _. split; [reflexivity|]. right.
      split; [discriminate|]. eexists. split; reflexivity.
  - eexists _, _. split; [reflexivity|]. right.
    split; [discriminate|]. eexists. split; reflexivity.
Qed.

(** Every run: no exchange with the network, or the login first and then
    either events that satisfy [after_login] for the token of the login,
    or no exchange at all. *)
Lemma run_events (W : World) (fl : Flags) :
  forallb (fun e => negb (is_network e)) (trace (fst (run W fl))) = true \/
  exists config evs,
    trace (fst (run W fl)) = EvPostForm login_url (login_values config) :: evs /\
    ((exists res auth, RoundTrip W 0 = Some res /\ StatusCode res = 200%Z /\
                       nth_error (strings.Split (Body res) LF) 2 = Some auth /\
                       Forall (after_login auth) evs) \/
     forallb (fun e => negb (is_network e)) evs = true).
Proof.
  unfold run, main.
  destruct (1 <? List.length (args fl))%nat; [left; reflexivity|].
  destruct (getConfig_start W) as [[msg [st [E T]]]|[config [st [E [T _]]]]].
  - left. rewrite (bind_Exited _ _ _ _ _ E). cbn [fst]. now rewrite T.
  - rewrite (bind_Returned _ _ _ _ _ E).
    destruct (authLogin_cases W config st T) as [st' [o [EA H]]].
    right. exists config.
    destruct H as [[auth [res [-> [R [S [N ->]]]]]]|[Ho [evs [T' F]]]].
    + rewrite (bind_Returned _ _ _ _ _ EA).
      destruct (adds_dispatch W auth fl (posted st config)) as [evs [Hevs Fevs]].
      exists evs. split; [|left; exists res, auth; auto].
      rewrite Hevs. unfold posted. cbn [trace]. now rewrite T.
    + exists evs. split; [|right; exact F].
      unfold bind. rewrite EA.
      destruct o as [a|code|msg]; [exfalso; exact (Ho a eq_refl) | exact T' | exact T'].
Qed.

(** X18.  Every request that a run sends to the feed goes to the tracker
    and carries, in its authorization header, the third line of the body
    of the 200 response to the login. *)
Theorem run_requests_authorized (W : World) (fl : Flags) (req : Request) :
  In (EvDo req) (trace (fst (run W fl))) ->
  exists res auth,
    RoundTrip W 0 = Some res /\ StatusCode res = 200%Z /\
    nth_error (strings.Split (Body res) LF) 2 = Some auth /\
    In ("Authorization", "GoogleLogin " ++ auth) (Header req) /\
    prefix "https://code.google.com/feeds/issues/p/" (URL req) = true.
Proof.
  intro H.
  assert (K : forall l, forallb (fun e => negb (is_network e)) l = true ->
                        ~ In (EvDo req) l).
  { intros l F I. rewrite forallb_forall in F. specialize (F _ I). discriminate. }
  destruct (run_events W fl) as [N|[config [evs [T [[res [auth [R [S [X F]]]]]|N]]]]].
  - exfalso. exact (K _ N H).
  - rewrite T in H. destruct H as [H|H]; [discriminate|].
    rewrite Forall_forall in F. destruct (F _ H) as [I P].
    exists res, auth. auto.
  - rewrite T in H. destruct H as [H|H]; [discriminate|].
    exfalso. exact (K _ N H).
Qed.

Lemma run_requests_authorized_witness :
  exists res auth,
    RoundTrip world_ok 0 = Some res /\ StatusCode res = 200%Z /\
    nth_error (strings.Split (Body res) LF) 2 = Some auth /\
    In ("Authorization", "GoogleLogin " ++ auth)
       (Header (get_request "Auth=tok" (issue_url "go" "7"))) /\
    prefix "https://code.google.com/feeds/issues/p/"
           (URL (get_request "Auth=tok" (issue_url "go" "7"))) = true.
Proof.
  apply (run_requests_authorized world_ok (flags_of ["7"])).
  right. left. reflexivity.
Defined.

(** X19.  A run logs in at most once: a post of the login form is the
    first event of the run, it goes to the login address, and no other
    post follows. *)
Theorem run_single_login (W : World) (fl : Flags) :
  List.length (filter is_login (trace (fst (run W fl)))) <= 1 /\
  (forall i url values,
     nth_error (trace (fst (run W fl))) i = Some (EvPostForm url values) ->
     i = 0 /\ url = login_url).
Proof.
  assert (A : forall l, forallb (fun e => negb (is_network e)) l = true ->
                        filter is_login l = []).
  { induction l as [|e l IH]; simpl; [reflexivity|].
    intro H. apply andb_true_iff in H. destruct H as [He Hl].
    destruct e; simpl in *; try discriminate; exact (IH Hl). }
  assert (B : forall auth l, Forall (after_login auth) l -> filter is_login l = []).
  { intros auth l F. induction F as [|e l He _ IH]; simpl; [reflexivity|].
    destruct e; simpl in *; try contradiction; exact IH. }
  assert (C : forall l i url values,
             filter is_login l = [] ->
             nth_error l i <> Some (EvPostForm url values)).
  { intros l i url values F H. apply nth_error_In in H.
    assert (I : In (EvPostForm url values) (filter is_login l))
      by (apply filter_In; split; [exact H | reflexivity]).
    rewrite F in I. exact I. }
  destruct (run_events W fl) as [N|[config [evs [T H]]]].
  - rewrite (A _ N). split; [simpl; lia|].
    intros i url values I. exfalso. exact (C _ _ _ _ (A _ N) I).
  - assert (F : filter is_login evs = [])
      by (destruct H as [[res [auth [_ [_ [_ F]]]]]|N]; [exact (B _ _ F) | exact (A _ N)]).
    rewrite T. cbn [filter is_login]. rewrite F. split; [simpl; lia|].
    intros [|i] url values I.
    + injection I as <- _. split; reflexivity.
    + exfalso. exact (C _ _ _ _ F I).
Qed.
